(** * Coronary artery segmentation toolkit: dataset indexing, training driver,
      runtime profiler and parameter counter

    A shallow embedding of
      - [src/mis/datasets/asoca.py]   (module [Asoca]),
      - [scripts/train_unet2d.py]     (module [Train]),
      - [scripts/runtime.py]          (module [Runtime]),
      - [scripts/model_parameters.py] (module [ModelParameters]),
    over a small model of the Python and NumPy primitives they use (module
    [Py]).  Definitions come first, the properties after them. *)

From Stdlib Require Import ZArith QArith Qround List String Ascii Bool Lia Arith.
From Stdlib Require Import DecimalString Qabs Lqa.
Import ListNotations.

Open Scope Z_scope.

(* ===================================================================== *)
(** ** Python and NumPy primitives *)
(* ===================================================================== *)

Module Py.

(** The built-in exceptions the modelled code can meet. *)
Inductive exn : Type :=
| IndexError
| ZeroDivisionError
| StopIteration
| FileNotFoundError
| ValueError
| NameError.

(** A computation either returns a value or raises. *)
Inductive result (A : Type) : Type :=
| Ok (a : A)
| Raise (e : exn).

Arguments Ok {A} a.
Arguments Raise {A} e.

Definition bind {A B : Type} (m : result A) (k : A -> result B) : result B :=
  match m with
  | Ok a => k a
  | Raise e => Raise e
  end.

Definition is_ok {A : Type} (m : result A) : bool :=
  match m with Ok _ => true | Raise _ => false end.

(** [l[i]] on a Python list with a non-negative position. *)
Definition list_get {A : Type} (l : list A) (i : nat) : result A :=
  match nth_error l i with
  | Some a => Ok a
  | None => Raise IndexError
  end.

(** [sum(l)]: the accumulator starts at [0] and the items are added from the
    left. *)
Definition sum (l : list Z) : Z := fold_left Z.add l 0.

(** [np.asarray(l).cumsum()].  The entries are extents of arrays held in
    memory, far below the 64-bit range, so the additions are those of [Z]. *)
Fixpoint cumsum_from (acc : Z) (l : list Z) : list Z :=
  match l with
  | [] => []
  | x :: r => (acc + x) :: cumsum_from (acc + x) r
  end.

Definition cumsum (l : list Z) : list Z := cumsum_from 0 l.

(** [a > x] on an array: the boolean mask. *)
Definition gt_mask (a : list Z) (x : Z) : list bool :=
  map (fun c => x <? c) a.

(** [np.argwhere(mask)] on a one-dimensional mask: the positions that hold
    [True], in increasing order. *)
Fixpoint argwhere_from (i : nat) (mask : list bool) : list nat :=
  match mask with
  | [] => []
  | b :: r => if b then i :: argwhere_from (S i) r else argwhere_from (S i) r
  end.

Definition argwhere (mask : list bool) : list nat := argwhere_from 0 mask.

(** [arr[0,0]] on the result of [argwhere]: its first row, or [IndexError]
    when there is none. *)
Definition first_row (rows : list nat) : result nat :=
  match rows with
  | [] => Raise IndexError
  | i :: _ => Ok i
  end.

(** [a % b] on Python integers. *)
Definition int_mod (a b : Z) : result Z :=
  if b =? 0 then Raise ZeroDivisionError else Ok (a mod b).

(** [a % b] where [a] is a NumPy integer scalar: a zero divisor gives [0]
    (and a warning), not an exception. *)
Definition np_mod (a b : nat) : nat :=
  if Nat.eqb b 0 then 0%nat else Nat.modulo a b.

(** [arr[..., i]] along an axis of extent [List.length l]: negative positions
    count from the end. *)
Definition axis_get {A : Type} (l : list A) (i : Z) : result A :=
  let n := Z.of_nat (List.length l) in
  if (0 <=? i) && (i <? n) then list_get l (Z.to_nat i)
  else if (- n <=? i) && (i <? 0) then list_get l (Z.to_nat (n + i))
  else Raise IndexError.

(** [f"{n}"] for a non-negative integer. *)
Definition str_of_nat (n : nat) : string :=
  NilEmpty.string_of_uint (Nat.to_uint n).

(** [sub in s] on strings. *)
Fixpoint contains (sub s : string) : bool :=
  String.prefix sub s ||
  match s with
  | EmptyString => false
  | String _ r => contains sub r
  end.

(** A binary64 value.  Finite values are kept as rationals in lowest terms:
    the rounding of the arithmetic is not modelled, the special values and
    the comparisons are. *)
Inductive float : Type :=
| Fin (q : Q)
| PInf
| NInf
| NaN.

Definition fin (q : Q) : float := Fin (Qred q).

Definition float_of_Z (z : Z) : float := fin (inject_Z z).

Definition Qltb (p q : Q) : bool := negb (Qle_bool q p).

(** [x < y]: false as soon as one side is NaN. *)
Definition flt (x y : float) : bool :=
  match x, y with
  | NaN, _ | _, NaN => false
  | NInf, NInf => false
  | NInf, _ => true
  | _, NInf => false
  | PInf, _ => false
  | Fin _, PInf => true
  | Fin p, Fin q => Qltb p q
  end.

Definition fadd (x y : float) : float :=
  match x, y with
  | NaN, _ | _, NaN => NaN
  | PInf, NInf | NInf, PInf => NaN
  | PInf, _ | _, PInf => PInf
  | NInf, _ | _, NInf => NInf
  | Fin p, Fin q => fin (p + q)
  end.

Definition fneg (x : float) : float :=
  match x with
  | Fin p => fin (- p)
  | PInf => NInf
  | NInf => PInf
  | NaN => NaN
  end.

Definition fsub (x y : float) : float := fadd x (fneg y).

(** [x / n] for a float (or the integer [0]) [x] and an integer [n], as in
    [loss / len(dl)]: Python raises on a zero divisor. *)
Definition fdiv_int (x : float) (n : Z) : result float :=
  if n =? 0 then Raise ZeroDivisionError
  else Ok match x with
          | Fin p => fin (p / inject_Z n)
          | PInf => if 0 <? n then PInf else NInf
          | NInf => if 0 <? n then NInf else PInf
          | NaN => NaN
          end.

(** [x / d] on NumPy arrays of integers, element by element: the quotient is
    a float, and a zero divisor gives an infinity or NaN with a warning.
    The quotient is kept exact: neither its rounding nor, for the 64-bit
    types, the rounding of the two operands to binary64 is modelled. *)
Definition np_true_divide (x d : Z) : float :=
  if d =? 0 then
    (if x =? 0 then NaN else if 0 <? x then PInf else NInf)
  else fin (inject_Z x / inject_Z d).

End Py.

Notation "x <- m ;; k" := (Py.bind m (fun x => k))
  (at level 61, m at next level, right associativity).

(* ===================================================================== *)
(** ** The ASOCA dataset: [src/mis/datasets/asoca.py] *)
(* ===================================================================== *)

Module Asoca.
Import Py.

(** *** Volumes on disk *)

(** The integer pixel types of an NRRD header, as [nrrd.read] maps them to
    NumPy dtypes ([signed char], [short], [int], [longlong] and their
    unsigned versions).  CT volumes are stored in such a type; volumes of
    floating-point pixels are outside this model. *)
Inductive dtype : Type :=
| Int8 | Int16 | Int32 | Int64
| UInt8 | UInt16 | UInt32 | UInt64.

Definition bits (t : dtype) : Z :=
  match t with
  | Int8 | UInt8 => 8
  | Int16 | UInt16 => 16
  | Int32 | UInt32 => 32
  | Int64 | UInt64 => 64
  end.

Definition is_signed (t : dtype) : bool :=
  match t with
  | Int8 | Int16 | Int32 | Int64 => true
  | _ => false
  end.

Definition dtype_min (t : dtype) : Z :=
  if is_signed t then - 2 ^ (bits t - 1) else 0.

Definition dtype_max (t : dtype) : Z :=
  if is_signed t then 2 ^ (bits t - 1) - 1 else 2 ^ bits t - 1.

(** The value an integer array of type [t] keeps of the exact result [z] of
    an operation: arithmetic on NumPy integer arrays wraps around silently. *)
Definition wrap (t : dtype) (z : Z) : Z :=
  if is_signed t
  then (z + 2 ^ (bits t - 1)) mod 2 ^ bits t - 2 ^ (bits t - 1)
  else z mod 2 ^ bits t.

Definition in_range (t : dtype) (z : Z) : Prop :=
  dtype_min t <= z <= dtype_max t.

(** A volume as [nrrd.read] returns it: its last axis runs over the slices;
    a slice is kept as the sequence of its pixel values. *)
Record volume : Type := {
  vol_dtype : dtype;
  vol_slices : list (list Z)
}.

(** [data.shape[-1]] *)
Definition shape_last (v : volume) : Z := Z.of_nat (List.length (vol_slices v)).

(** A directory: its entries in the order the operating system lists them,
    each with the volume the file holds. *)
Definition directory : Type := list (string * volume).

(** [dir.glob(f"{pre}*")]: the entries whose name starts with [pre], in
    listing order. *)
Definition glob (d : directory) (pre : string) : list (string * volume) :=
  filter (fun e => String.prefix pre (fst e)) d.

(** [next(iter(g))] *)
Definition next_iter {A : Type} (g : list A) : result A :=
  match g with
  | [] => Raise StopIteration
  | x :: _ => Ok x
  end.

(** [nrrd.read(dir / name)] *)
Definition nrrd_read (d : directory) (name : string) : result volume :=
  match find (fun e => String.eqb name (fst e)) d with
  | Some e => Ok (snd e)
  | None => Raise FileNotFoundError
  end.

(** The four directories under [data_dir]. *)
Record files : Type := {
  normal_ctca : directory;      (* Normal/CTCA *)
  normal_anno : directory;      (* Normal/Annotations *)
  diseased_ctca : directory;    (* Diseased/CTCA *)
  diseased_anno : directory     (* Diseased/Annotations *)
}.

(** *** [get_num_slices] *)

(** [for i in range(count)]: read [f"{stem}{i+1}.nrrd"] and append the extent
    of its last axis.  [i] is the loop variable, [count] what is left of the
    range. *)
Fixpoint read_extents (d : directory) (stem : string) (i count : nat)
    (num_slices : list Z) : result (list Z) :=
  match count with
  | O => Ok num_slices
  | S c =>
      data <- nrrd_read d (stem ++ str_of_nat (i + 1) ++ ".nrrd") ;;
      read_extents d stem (S i) c (num_slices ++ [shape_last data])
  end.

Definition get_num_slices (fs : files) : result (list Z * nat * nat) :=
  let num_normal := List.length (glob (normal_ctca fs) "Normal") in
  let num_diseased := List.length (glob (diseased_ctca fs) "Diseased") in
  ns <- read_extents (normal_ctca fs) "Normal_" 0 num_normal [] ;;
  ns <- read_extents (diseased_ctca fs) "Diseased_" 0 num_diseased ns ;;
  Ok (ns, num_normal, num_diseased).

(** *** The dataset object *)

Record ASOCADataset : Type := {
  norm : bool;
  data_dir : files;
  num_slices : list Z;
  num_normal : nat;
  num_diseased : nat;
  slice_cumsums : list Z
}.

(** [__init__] *)
Definition init (norm_flag : bool) (fs : files) : result ASOCADataset :=
  r <- get_num_slices fs ;;
  let '(ns, nn, nd) := r in
  Ok {| norm := norm_flag; data_dir := fs;
        num_slices := ns; num_normal := nn; num_diseased := nd;
        slice_cumsums := cumsum ns |}.

(** [__len__] *)
Definition len (ds : ASOCADataset) : Z := sum (num_slices ds).

(** *** [__getitem__] *)

(** Lines 35-36: the patient and the slice of a flat index. *)
Definition locate (ds : ASOCADataset) (index : Z) : result (nat * Z) :=
  patient_idx <- first_row (argwhere (gt_mask (slice_cumsums ds) index)) ;;
  n <- list_get (num_slices ds) patient_idx ;;
  slice_idx <- int_mod index n ;;
  Ok (patient_idx, slice_idx).

(** Lines 38-43: the files of the patient, the first match of a glob. *)
Definition select_paths (ds : ASOCADataset) (patient_idx : nat)
    : result ((string * volume) * (string * volume)) :=
  let fs := data_dir ds in
  if (patient_idx <? num_normal ds)%nat then
    let pat := ("Normal_" ++ str_of_nat (patient_idx + 1))%string in
    ctca_path <- next_iter (glob (normal_ctca fs) pat) ;;
    anno_path <- next_iter (glob (normal_anno fs) pat) ;;
    Ok (ctca_path, anno_path)
  else
    let pat := ("Diseased_"
                ++ str_of_nat (np_mod patient_idx (num_normal ds) + 1))%string in
    ctca_path <- next_iter (glob (diseased_ctca fs) pat) ;;
    anno_path <- next_iter (glob (diseased_anno fs) pat) ;;
    Ok (ctca_path, anno_path).

(** [a.min()] and [a.max()]: a reduction of an empty array raises. *)
Definition amin (a : list Z) : result Z :=
  match a with
  | [] => Raise ValueError
  | x :: r => Ok (fold_left Z.min r x)
  end.

Definition amax (a : list Z) : result Z :=
  match a with
  | [] => Raise ValueError
  | x :: r => Ok (fold_left Z.max r x)
  end.

(** [x - m] and [np.abs(x)] inside an integer array of type [t]. *)
Definition np_sub (t : dtype) (x m : Z) : Z := wrap t (x - m).
Definition np_abs (t : dtype) (x : Z) : Z := wrap t (Z.abs x).

(** The divisor of line 51: [np.abs(ctca - ctca.min()).max()]. *)
Definition norm_divisor (t : dtype) (px : list Z) : result Z :=
  m <- amin px ;;
  amax (map (np_abs t) (map (fun x => np_sub t x m) px)).

(** Lines 50-51: [ctca = ctca - ctca.min(); ctca = ctca / np.abs(ctca).max()]. *)
Definition normalize (t : dtype) (px : list Z) : result (list float) :=
  m <- amin px ;;
  let shifted := map (fun x => np_sub t x m) px in
  d <- amax (map (np_abs t) shifted) ;;
  Ok (map (fun x => np_true_divide x d) shifted).

(** The image of a sample: the raw slice, or the normalised one. *)
Inductive image : Type :=
| Raw (t : dtype) (px : list Z)
| Normalized (px : list float).

Record sample : Type := {
  sample_image : image;
  sample_mask : volume
}.

(** [__getitem__], up to the resizing of lines 53-55, which acts on the two
    arrays returned here. *)
Definition getitem (ds : ASOCADataset) (index : Z) : result sample :=
  loc <- locate ds index ;;
  let '(patient_idx, slice_idx) := loc in
  paths <- select_paths ds patient_idx ;;
  let '(ctca_path, anno_path) := paths in
  let ctca_vol := snd ctca_path in
  ctca <- axis_get (vol_slices ctca_vol) slice_idx ;;
  let anno := snd anno_path in
  img <- (if norm ds
          then px <- normalize (vol_dtype ctca_vol) ctca ;; Ok (Normalized px)
          else Ok (Raw (vol_dtype ctca_vol) ctca)) ;;
  Ok {| sample_image := img; sample_mask := anno |}.

End Asoca.

(* ===================================================================== *)
(** ** The model constructors: [mis.models] as the scripts call it *)
(* ===================================================================== *)

Module Models.

(** [UNet2D(1, 1)], [UNet2D(1, 1, skip_conn)] and
    [UNet2DNonLocal(1, 1, skip_conn=...)]: the constructor called and the
    skip connection passed to it, if any. *)
Inductive architecture : Type :=
| UNet2D (skip_conn : option string)
| UNet2DNonLocal (skip_conn : string).

End Models.


(* ===================================================================== *)
(** ** The training driver: [scripts/train_unet2d.py] *)
(* ===================================================================== *)

Module Train.
Import Py.

(** The command-line arguments [train] reads.  [--lr] and [--batch_size] are
    consumed by the optimizer and the data loaders, which are parameters
    below.  The run is one without [--thresh]: with it the predictions are
    thresholded and scored with scikit-learn at lines 95-97 and 111-118,
    calls that can raise and that are not modelled. *)
Record args : Type := {
  num_epochs : nat;
  loss : string
}.

(** The entries of [metrics] every epoch has. *)
Record metrics : Type := {
  m_val_loss : float;
  m_train_loss : float;
  m_val_dice : float;
  m_train_dice : float
}.

Section Driver.

(** The deep-learning framework: [state] is the model's weights together with
    the optimizer's moments; a batch carries its images, its masks and the
    number of its samples. *)
Variables state images masks probs : Type.

Record batch : Type := {
  batch_images : images;
  batch_masks : masks;
  batch_len : nat
}.

(** [model(images)[1]]; the flag tells [model.train()] from [model.eval()]. *)
Variable model : bool -> state -> images -> probs.

(** [optimizer.zero_grad(); loss.backward(); optimizer.step()] for the loss
    [loss_fn(masks, probs)] of the batch. *)
Variable optimizer_step : (masks -> probs -> float) -> state -> batch -> state.

(** [mis.loss]: the values [.item()] gives. *)
Variables dice_loss gdlv_loss focal_loss : masks -> probs -> float.

(** What an epoch's checkpoint directory [epoch{n}] receives. *)
Record checkpoint : Type := {
  ckpt_epoch : nat;        (* the [n] of the directory name *)
  ckpt_model : state;      (* [epoch_dir / "model"] *)
  ckpt_metrics : metrics   (* [epoch_dir / "metrics.json"] *)
}.

(** The variables of [train] that live across epochs, and the checkpoints
    written so far. *)
Record run : Type := {
  weights : state;
  min_loss : float;
  train_losses : list float;
  val_losses : list float;
  train_dices : list float;
  val_dices : list float;
  checkpoints : list checkpoint
}.

(** Line 41. *)
Definition select_loss (a : args) : masks -> probs -> float :=
  if String.eqb (loss a) "dice" then dice_loss
  else if String.eqb (loss a) "gdlv" then gdlv_loss
  else focal_loss.

(** Lines 55-64: one training batch.  The accumulator is
    [(model, train_loss, train_dice)]. *)
Definition train_step (loss_fn : masks -> probs -> float)
    (acc : state * float * float) (b : batch) : state * float * float :=
  let '(st, train_loss, train_dice) := acc in
  let p := model true st (batch_images b) in
  let l := loss_fn (batch_masks b) p in
  let st' := optimizer_step loss_fn st b in
  (st', fadd train_loss l,
   fadd train_dice (fsub (float_of_Z 1) (dice_loss (batch_masks b) p))).

(** Lines 76-87: one validation batch.  The accumulator is
    [(val_loss, val_dice, len(total_preds))]. *)
Definition val_step (loss_fn : masks -> probs -> float) (st : state)
    (acc : float * float * nat) (b : batch) : float * float * nat :=
  let '(val_loss, val_dice, n_preds) := acc in
  let p := model false st (batch_images b) in
  let l := loss_fn (batch_masks b) p in
  (fadd val_loss l,
   fadd val_dice (fsub (float_of_Z 1) (dice_loss (batch_masks b) p)),
   (n_preds + batch_len b)%nat).

(** Lines 99-109: the averages over the batches. *)
Definition epoch_metrics (train_loss val_loss train_dice val_dice : float)
    (len_train_dl len_validation_dl : nat) : result metrics :=
  train_loss' <- fdiv_int train_loss (Z.of_nat len_train_dl) ;;
  val_loss' <- fdiv_int val_loss (Z.of_nat len_validation_dl) ;;
  train_dice' <- fdiv_int train_dice (Z.of_nat len_train_dl) ;;
  val_dice' <- fdiv_int val_dice (Z.of_nat len_validation_dl) ;;
  Ok {| m_val_loss := val_loss'; m_train_loss := train_loss';
        m_val_dice := val_dice'; m_train_dice := train_dice' |}.

(** Lines 120-123. *)
Definition record_epoch (r : run) (st : state) (m : metrics) : run :=
  {| weights := st;
     min_loss := min_loss r;
     train_losses := train_losses r ++ [m_train_loss m];
     val_losses := val_losses r ++ [m_val_loss m];
     train_dices := train_dices r ++ [m_train_dice m];
     val_dices := val_dices r ++ [m_val_dice m];
     checkpoints := checkpoints r |}.

(** Lines 126-135: the new minimum and the two files of the checkpoint. *)
Definition save_checkpoint (r : run) (epoch : nat) (m : metrics) : run :=
  {| weights := weights r;
     min_loss := m_val_loss m;
     train_losses := train_losses r;
     val_losses := val_losses r;
     train_dices := train_dices r;
     val_dices := val_dices r;
     checkpoints := checkpoints r
                    ++ [ {| ckpt_epoch := epoch + 1;
                            ckpt_model := weights r;
                            ckpt_metrics := m |} ] |}.

(** The epoch loop, lines 45-156.  [train_dl] gives the batches of each epoch
    (the loader shuffles), [validation_dl] the validation batches: the
    loaders are taken as built, their construction at lines 38-39 (which
    refuses an empty training set) is not part of the model.  [epoch]
    is the loop variable and [count] what is left of [range(num_epochs)].
    After a checkpoint, the 50 predictions to plot are drawn without
    replacement from [total_preds], which raises when there are fewer. *)
Fixpoint epochs (loss_fn : masks -> probs -> float)
    (train_dl : nat -> list batch) (validation_dl : list batch)
    (epoch count : nat) (r : run) : run * result unit :=
  match count with
  | O => (r, Ok tt)
  | S c =>
      let '(st, train_loss, train_dice) :=
        fold_left (train_step loss_fn) (train_dl epoch)
                  (weights r, float_of_Z 0, float_of_Z 0) in
      let '(val_loss, val_dice, n_preds) :=
        fold_left (val_step loss_fn st) validation_dl
                  (float_of_Z 0, float_of_Z 0, 0%nat) in
      match epoch_metrics train_loss val_loss train_dice val_dice
                          (List.length (train_dl epoch))
                          (List.length validation_dl) with
      | Raise e =>
          ({| weights := st; min_loss := min_loss r;
              train_losses := train_losses r; val_losses := val_losses r;
              train_dices := train_dices r; val_dices := val_dices r;
              checkpoints := checkpoints r |}, Raise e)
      | Ok m =>
          let r1 := record_epoch r st m in
          if flt (m_val_loss m) (min_loss r1) then
            let r2 := save_checkpoint r1 epoch m in
            if (n_preds <? 50)%nat then (r2, Raise ValueError)
            else epochs loss_fn train_dl validation_dl (S epoch) c r2
          else epochs loss_fn train_dl validation_dl (S epoch) c r1
      end
  end.

(** [train], up to the two summary plots drawn after the loop. *)
Definition train (a : args) (st0 : state)
    (train_dl : nat -> list batch) (validation_dl : list batch)
    : run * result unit :=
  epochs (select_loss a) train_dl validation_dl 0 (num_epochs a)
         {| weights := st0; min_loss := PInf;
            train_losses := []; val_losses := [];
            train_dices := []; val_dices := [];
            checkpoints := [] |}.

End Driver.

Arguments Build_batch {images masks} _ _ _.
Arguments batch_images {images masks} _.
Arguments batch_masks {images masks} _.
Arguments batch_len {images masks} _.
Arguments Build_checkpoint {state} _ _ _.
Arguments ckpt_epoch {state} _.
Arguments ckpt_model {state} _.
Arguments ckpt_metrics {state} _.
Arguments Build_run {state} _ _ _ _ _ _ _.
Arguments weights {state} _.
Arguments min_loss {state} _.
Arguments train_losses {state} _.
Arguments val_losses {state} _.
Arguments train_dices {state} _.
Arguments val_dices {state} _.
Arguments checkpoints {state} _.
Arguments select_loss {masks probs} _ _ _ _.
Arguments train_step {state images masks probs} _ _ _ _ _ _.
Arguments val_step {state images masks probs} _ _ _ _ _ _.
Arguments record_epoch {state} _ _ _.
Arguments save_checkpoint {state} _ _ _.
Arguments epochs {state images masks probs} _ _ _ _ _ _ _ _ _.
Arguments train {state images masks probs} _ _ _ _ _ _ _ _ _.

(** *** The main block *)

(** What [parser.parse_args()] returns, without [--lr] and [--batch_size].
    The three optional flags are [None] unless given; they are only tested
    for truth. *)
Record namespace : Type := {
  ns_num_epochs : Z;
  ns_loss : string;
  ns_dataset : string;
  ns_skip_conn : string;
  ns_split_strat : string;
  ns_merge_test_val : bool;
  ns_non_local : bool;
  ns_thresh : bool
}.

(** Lines 211-217: the two checks on the arguments. *)
Definition check_args (a : namespace) : Py.result unit :=
  if negb (existsb (String.eqb (ns_loss a)) ["dice"; "focal"; "gdlv"]%string)
  then Py.Raise Py.ValueError
  else if negb (existsb (String.eqb (ns_dataset a)) ["asoca"; "brats"]%string)
  then Py.Raise Py.ValueError
  else Py.Ok tt.

(** Line 266: the name of the output directory. *)
Definition out_dir (a : namespace) : string :=
  ("unet2d" ++ (if ns_non_local a then "_nonlocal" else "")
   ++ "_results_" ++ ns_loss a ++ "_" ++ ns_skip_conn a
   ++ (if ns_thresh a then "_t" else "")
   ++ "_" ++ ns_split_strat a
   ++ (if ns_merge_test_val a then "_mtv" else ""))%string.

(** Line 269: the model that is trained. *)
Definition build_model (a : namespace) : Models.architecture :=
  if ns_non_local a then Models.UNet2DNonLocal (ns_skip_conn a)
  else Models.UNet2D (Some (ns_skip_conn a)).

(** What [train] reads of the namespace; [range(num_epochs)] is empty for a
    negative number. *)
Definition train_args (a : namespace) : args :=
  {| num_epochs := Z.to_nat (ns_num_epochs a); loss := ns_loss a |}.


End Train.

(* ===================================================================== *)
(** ** The runtime profiler: [scripts/runtime.py] *)
(* ===================================================================== *)

Module Runtime.
Import Py.

Open Scope Q_scope.

(** The readings of [time.time()] around the three stages of one slice.
    Clock readings are finite; they are kept as rationals, the rounding of
    their sums is not modelled. *)
Record slice_clock : Type := {
  data_preprocessing_time_slice_t0 : Q;
  data_preprocessing_time_slice_t1 : Q;
  inference_time_slice_t0 : Q;
  inference_time_slice_t1 : Q;
  data_postprocessing_time_slice_t0 : Q;
  data_postprocessing_time_slice_t1 : Q
}.

(** The readings of one patient: around the whole iteration, around the
    loading of the volume, and for every slice of the volume. *)
Record patient_clock : Type := {
  total_time_t0 : Q;
  loading_time_t0 : Q;
  loading_time_t1 : Q;
  slice_clocks : list slice_clock;
  total_time_t1 : Q
}.

(** The five lists filled by the loop over the patients. *)
Record timings : Type := {
  loading_times : list Q;
  data_preprocessing_times : list Q;
  inference_times : list Q;
  data_postprocessing_times : list Q;
  total_times : list Q
}.

(** What is printed and written to [times.txt]. *)
Record report : Type := {
  loading_time : Q;
  data_preprocessing_time : Q;
  inference_time : Q;
  data_postprocessing_time : Q;
  total_time : Q;
  percent_loading_time : Q;
  percent_data_preprocessing_time : Q;
  percent_inference_time : Q;
  percent_data_postprocessing_time : Q
}.

(** [sum(l)] on floats. *)
Definition qsum (l : list Q) : Q := fold_left Qplus l 0.

(** [sum(l) / len(l)] *)
Definition average (l : list Q) : result Q :=
  if Nat.eqb (List.length l) 0 then Raise ZeroDivisionError
  else Ok (qsum l / inject_Z (Z.of_nat (List.length l))).

(** [round(x, 2)]: to the nearest hundredth, ties to the even one, of the
    exact value; the digits Python prints for a binary64 value next to a tie
    can differ. *)
Definition round2 (x : Q) : Q :=
  let y := x * 100 in
  let f := Qfloor y in
  let r := y - inject_Z f in
  let n := if Qltb r (1 # 2) then f
           else if Qltb (1 # 2) r then (f + 1)%Z
           else if Z.even f then f else (f + 1)%Z in
  inject_Z n / 100.

(** [round(part / total * 100, 2)] *)
Definition percent (part total : Q) : result Q :=
  if Qeq_bool total 0 then Raise ZeroDivisionError
  else Ok (round2 (part / total * 100)).

(** Lines 77-79: the three appends that end a slice. *)
Definition slice_step (acc : list Q * list Q * list Q) (c : slice_clock)
    : list Q * list Q * list Q :=
  let '(pre, inf, post) := acc in
  (pre ++ [data_preprocessing_time_slice_t1 c
           - data_preprocessing_time_slice_t0 c],
   inf ++ [inference_time_slice_t1 c - inference_time_slice_t0 c],
   post ++ [data_postprocessing_time_slice_t1 c
            - data_postprocessing_time_slice_t0 c]).

(** Lines 83-87: the five appends that end a patient. *)
Definition patient_step (t : timings) (p : patient_clock) : timings :=
  let '(pre, inf, post) := fold_left slice_step (slice_clocks p) ([], [], []) in
  {| loading_times := loading_times t ++ [loading_time_t1 p - loading_time_t0 p];
     data_preprocessing_times := data_preprocessing_times t ++ [qsum pre];
     inference_times := inference_times t ++ [qsum inf];
     data_postprocessing_times := data_postprocessing_times t ++ [qsum post];
     total_times := total_times t ++ [total_time_t1 p - total_time_t0 p] |}.

Definition no_timings : timings :=
  {| loading_times := []; data_preprocessing_times := [];
     inference_times := []; data_postprocessing_times := [];
     total_times := [] |}.

(** Lines 89-98: the averages and their shares of the total. *)
Definition summarise (t : timings) : result report :=
  lt <- average (loading_times t) ;;
  pt <- average (data_preprocessing_times t) ;;
  it <- average (inference_times t) ;;
  ot <- average (data_postprocessing_times t) ;;
  tt <- average (total_times t) ;;
  pl <- percent lt tt ;;
  pp <- percent pt tt ;;
  pi <- percent it tt ;;
  po <- percent ot tt ;;
  Ok {| loading_time := lt; data_preprocessing_time := pt;
        inference_time := it; data_postprocessing_time := ot;
        total_time := tt;
        percent_loading_time := pl; percent_data_preprocessing_time := pp;
        percent_inference_time := pi; percent_data_postprocessing_time := po |}.

(** The timing of [perform_runtime_analysis_unet], lines 37-98, as a
    function of the clock readings of its [number_of_patients] iterations.
    The loading of the weights (line 27) and of the volumes (line 48), the
    inference and the writing of [times.txt] are not part of it, nor are
    their failures. *)
Definition perform_runtime_analysis_unet (clocks : list patient_clock)
    : result report :=
  summarise (fold_left patient_step clocks no_timings).

(** [perform_runtime_analysis_segformer]: the same timing code around the
    other model. *)
Definition perform_runtime_analysis_segformer (clocks : list patient_clock)
    : result report :=
  summarise (fold_left patient_step clocks no_timings).

(** Lines 61-63 and 166-168: the normalisation of a slice before inference,
    the two statements of the dataset. *)
Definition preprocess (t : Asoca.dtype) (px : list Z) : result (list float) :=
  m <- Asoca.amin px ;;
  let shifted := map (fun x => Asoca.np_sub t x m) px in
  d <- Asoca.amax (map (Asoca.np_abs t) shifted) ;;
  Ok (map (fun x => np_true_divide x d) shifted).

Close Scope Q_scope.

(** What the main block does for a name. *)
Inductive event : Type :=
| Called_unet (model : string)
| Called_segformer (model : string)
| Discarded (e : exn).   (* an exception object built and dropped *)

Section Main.

(** The two analyses as the main block sees them: they return or raise. *)
Variables analysis_unet analysis_segformer : string -> nat -> result unit.

(** Lines 238-243: one iteration of the loop over [model_names]. *)
Definition dispatch (model : string) (number_of_patients : nat)
    : list event * result unit :=
  let '(ev1, r1) :=
    if contains "unet2d" model
    then ([Called_unet model], analysis_unet model number_of_patients)
    else ([], Ok tt) in
  match r1 with
  | Raise e => (ev1, Raise e)
  | Ok _ =>
      if contains "segformer" model
      then (ev1 ++ [Called_segformer model],
            analysis_segformer model number_of_patients)
      else (ev1 ++ [Discarded ValueError], Ok tt)
  end.

(** Lines 237-243. *)
Fixpoint main_loop (model_names : list string) (number_of_patients : nat)
    : list event * result unit :=
  match model_names with
  | [] => ([], Ok tt)
  | model :: rest =>
      match dispatch model number_of_patients with
      | (ev, Raise e) => (ev, Raise e)
      | (ev, Ok _) =>
          let '(ev', r) := main_loop rest number_of_patients in
          (ev ++ ev', r)
      end
  end.

(** The main block: [number_of_patients = 2]. *)
Definition main (model_names : list string) : list event * result unit :=
  main_loop model_names 2.

End Main.

(** Lines 20-26 of [perform_runtime_analysis_unet]: the model built for a
    directory name. *)
Definition unet_model (model_name : string) : Models.architecture :=
  if Py.contains "nonlocal" model_name then
    if Py.contains "concat" model_name
    then Models.UNet2DNonLocal "concat"
    else Models.UNet2DNonLocal "add"
  else Models.UNet2D None.


End Runtime.

(* ===================================================================== *)
(** ** The parameter counter: [scripts/model_parameters.py] *)
(* ===================================================================== *)

Module ModelParameters.
Import Py.

(** A parameter tensor, as the counter sees it. *)
Record parameter : Type := {
  numel : Z;
  requires_grad : bool
}.

(** [model.parameters()] *)
Definition module : Type := list parameter.

(** Line 53: [sum(p.numel() for p in model.parameters() if p.requires_grad)] *)
Definition num_model_parameters (model : module) : Z :=
  sum (map numel (filter requires_grad model)).

Inductive event : Type :=
| Loaded_unet2d (model_name : string)
| Loaded_segformer (model_name : string)
| Discarded (e : exn)                      (* built and dropped *)
| Printed (model_name : string) (n : Z).   (* line 54 *)

Section Main.

(** [get_model_unet2d] and [get_model_segformer]: they build the model and
    load its weights, or raise. *)
Variables get_model_unet2d get_model_segformer : string -> result module.

(** Lines 46-51: the variable [model] before and after; it is unbound until
    a first model is loaded. *)
Definition dispatch (model : option module) (model_name : string)
    : list event * result (option module) :=
  let '(ev1, r1) :=
    if contains "unet2d" model_name
    then ([Loaded_unet2d model_name],
          m <- get_model_unet2d model_name ;; Ok (Some m))
    else ([], Ok model) in
  match r1 with
  | Raise e => (ev1, Raise e)
  | Ok model1 =>
      if contains "segformer" model_name
      then (ev1 ++ [Loaded_segformer model_name],
            m <- get_model_segformer model_name ;; Ok (Some m))
      else (ev1 ++ [Discarded ValueError], Ok model1)
  end.

(** Lines 46-54: one iteration. *)
Definition iteration (model : option module) (model_name : string)
    : list event * result (option module) :=
  match dispatch model model_name with
  | (ev, Raise e) => (ev, Raise e)
  | (ev, Ok None) => (ev, Raise NameError)
  | (ev, Ok (Some m)) =>
      (ev ++ [Printed model_name (num_model_parameters m)], Ok (Some m))
  end.

(** Lines 45-54. *)
Fixpoint main_loop (model : option module) (model_names : list string)
    : list event * result unit :=
  match model_names with
  | [] => ([], Ok tt)
  | model_name :: rest =>
      match iteration model model_name with
      | (ev, Raise e) => (ev, Raise e)
      | (ev, Ok model') =>
          let '(ev', r) := main_loop model' rest in
          (ev ++ ev', r)
      end
  end.

Definition main (model_names : list string) : list event * result unit :=
  main_loop None model_names.

End Main.

(** Lines 20-26 of [get_model_unet2d]: the model built for a directory
    name. *)
Definition unet_model (model_name : string) : Models.architecture :=
  if Py.contains "nonlocal" model_name then
    if Py.contains "concat" model_name
    then Models.UNet2DNonLocal "concat"
    else Models.UNet2DNonLocal "sum"
  else Models.UNet2D None.


End ModelParameters.

(* ===================================================================== *)
(** ** Vocabulary of the properties *)
(* ===================================================================== *)

(** The notions the statements below are written in.  None of them is part
    of the program. *)

Module Vocabulary.
Import Py.

(** The number of slices of the patients before position [p]: the cumulative
    slice count of all earlier patients. *)
Definition earlier (ns : list Z) (p : nat) : Z := sum (firstn p ns).

Arguments earlier : simpl never.

(** The dataset comes from the constructor. *)
Definition constructed (ds : Asoca.ASOCADataset) : Prop :=
  exists norm_flag fs, Asoca.init norm_flag fs = Ok ds.

(** The flat index [index] is resolved to slice [s] of the patient at
    position [p]. *)
Definition resolves (ds : Asoca.ASOCADataset) (index : Z) (p : nat) (s : Z)
    : Prop :=
  Asoca.locate ds index = Ok (p, s).

(** The reading of the index resolution by subtraction: the slice offset is
    the index minus the cumulative slice count of the earlier patients. *)
Definition offset_by_subtraction : Prop :=
  forall ds index, constructed ds -> 0 <= index < Asoca.len ds ->
    exists p, resolves ds index p (index - earlier (Asoca.num_slices ds) p).

(** The file names [get_num_slices] reads for the patient numbered [i+1]. *)
Definition normal_name (i : nat) : string :=
  ("Normal_" ++ str_of_nat (i + 1) ++ ".nrrd")%string.

Definition diseased_name (i : nat) : string :=
  ("Diseased_" ++ str_of_nat (i + 1) ++ ".nrrd")%string.

(** A slice holds at least two distinct pixel values; a slice is constant. *)
Definition two_values (px : list Z) : Prop :=
  exists a b, In a px /\ In b px /\ a <> b.

Definition constant (px : list Z) : Prop :=
  px <> [] /\ forall a b, In a px -> In b px -> a = b.

(** The spread of the slice, its maximum minus its minimum, is a value of
    the pixel type. *)
Definition spread_fits (t : Asoca.dtype) (px : list Z) : Prop :=
  forall a b, In a px -> In b px -> a - b <= Asoca.dtype_max t.

(** A normalised slice has minimum exactly 0 and maximum exactly 1. *)
Definition unit_range (out : list float) : Prop :=
  In (Fin 0) out /\ In (Fin 1) out /\
  Forall (fun v => exists q, v = Fin q /\ (0 <= q <= 1)%Q) out.

(** The normalisation as an unconditional statement: two distinct values are
    enough for a non-zero divisor and a unit range. *)
Definition normalisation_total : Prop :=
  forall t px, Forall (Asoca.in_range t) px -> two_values px ->
    exists d out, Asoca.norm_divisor t px = Ok d /\ d <> 0 /\
                  Asoca.normalize t px = Ok out /\ unit_range out.

(** The least validation loss so far, infinity before the first epoch: the
    loss that each new one is compared with. *)
Definition min_so_far (l : list float) : float :=
  fold_left (fun m v => if flt v m then v else m) l PInf.

(** A loss that compares below infinity: neither NaN nor [+inf]. *)
Definition below_inf (v : float) : Prop := flt v PInf = true.

(** The arithmetic mean of a list of times. *)
Definition mean (l : list Q) : Q :=
  (fold_right Qplus 0 l / inject_Z (Z.of_nat (List.length l)))%Q.

(** The four stage totals of a patient. *)
Definition load_total (p : Runtime.patient_clock) : Q :=
  (Runtime.loading_time_t1 p - Runtime.loading_time_t0 p)%Q.

Definition preprocess_total (p : Runtime.patient_clock) : Q :=
  fold_right Qplus 0%Q
    (map (fun c => (Runtime.data_preprocessing_time_slice_t1 c
                    - Runtime.data_preprocessing_time_slice_t0 c)%Q)
         (Runtime.slice_clocks p)).

Definition infer_total (p : Runtime.patient_clock) : Q :=
  fold_right Qplus 0%Q
    (map (fun c => (Runtime.inference_time_slice_t1 c
                    - Runtime.inference_time_slice_t0 c)%Q)
         (Runtime.slice_clocks p)).

Definition postprocess_total (p : Runtime.patient_clock) : Q :=
  fold_right Qplus 0%Q
    (map (fun c => (Runtime.data_postprocessing_time_slice_t1 c
                    - Runtime.data_postprocessing_time_slice_t0 c)%Q)
         (Runtime.slice_clocks p)).

Definition elapsed_total (p : Runtime.patient_clock) : Q :=
  (Runtime.total_time_t1 p - Runtime.total_time_t0 p)%Q.

(** The three sums a patient adds to the lists of the profiler, as the slice
    loop computes them. *)
Definition stage_sums (p : Runtime.patient_clock) : Q * Q * Q :=
  let '(pre, inf, post) :=
    fold_left Runtime.slice_step (Runtime.slice_clocks p) ([], [], []) in
  (Runtime.qsum pre, Runtime.qsum inf, Runtime.qsum post).

(** The number of trainable weights: the element counts of the parameters
    that require a gradient, added up. *)
Fixpoint trainable_weights (model : ModelParameters.module) : Z :=
  match model with
  | [] => 0
  | p :: rest =>
      if ModelParameters.requires_grad p
      then ModelParameters.numel p + trainable_weights rest
      else trainable_weights rest
  end.

Section TrainingTrace.

Variables state images masks probs : Type.
Variable model : bool -> state -> images -> probs.
Variable optimizer_step :
  (masks -> probs -> float) -> state -> Train.batch images masks -> state.
Variable dice_loss : masks -> probs -> float.

(** The probabilities the model gives along the batches of a training epoch:
    each batch is seen by the weights the earlier steps have left. *)
Fixpoint train_probs (loss_fn : masks -> probs -> float) (st : state)
    (bs : list (Train.batch images masks)) : list probs :=
  match bs with
  | [] => []
  | b :: r =>
      model true st (Train.batch_images b)
      :: train_probs loss_fn (optimizer_step loss_fn st b) r
  end.

(** The same along a validation pass, where the weights stay. *)
Definition val_probs (st : state) (bs : list (Train.batch images masks))
    : list probs :=
  map (fun b => model false st (Train.batch_images b)) bs.

(** One minus a float: the number [1 - q] for a number [q], and the
    opposite infinity, or NaN, otherwise. *)
Definition one_minus (x : float) : float :=
  match x with
  | Fin q => Fin (Qred (1 - q))
  | PInf => NInf
  | NInf => PInf
  | NaN => NaN
  end.

(** The Dice loss of a batch and the probabilities the model gave for it. *)
Definition batch_dice_loss (bp : Train.batch images masks * probs) : float :=
  dice_loss (Train.batch_masks (fst bp)) (snd bp).

(** A checkpoint was written for the epoch at position [k], epoch [k+1] of
    the directory names. *)
Definition saved (r : Train.run state) (k : nat) : Prop :=
  exists c, In c (Train.checkpoints r) /\ Train.ckpt_epoch c = (k + 1)%nat.

(** A checkpoint is written exactly for the epochs whose validation loss is
    strictly lower than that of every earlier epoch. *)
Definition checkpoint_iff_lowest (r : Train.run state) : Prop :=
  forall k, (k < List.length (Train.val_losses r))%nat ->
    (saved r k <->
     forall j, (j < k)%nat ->
       flt (nth k (Train.val_losses r) NaN) (nth j (Train.val_losses r) NaN)
       = true).

(** The state of the run after [epoch] epochs follows the least validation
    loss: [min_loss] is that least loss, and the checkpoints are those of the
    epochs whose loss was below the least loss before them. *)
Definition tracks_minimum (r : Train.run state) (epoch : nat) : Prop :=
  List.length (Train.val_losses r) = epoch /\
  Train.min_loss r = min_so_far (Train.val_losses r) /\
  (forall c, In c (Train.checkpoints r) ->
     (1 <= Train.ckpt_epoch c <= epoch)%nat) /\
  (forall k, (k < epoch)%nat ->
     (saved r k <->
      flt (nth k (Train.val_losses r) NaN)
          (min_so_far (firstn k (Train.val_losses r))) = true)).

End TrainingTrace.

Arguments train_probs {state images masks probs} _ _ _ _ _.
Arguments val_probs {state images masks probs} _ _ _.
Arguments batch_dice_loss {images masks probs} _ _.
Arguments saved {state} _ _.
Arguments checkpoint_iff_lowest {state} _.
Arguments tracks_minimum {state} _ _.



(** The four lists of a run have one entry per recorded epoch. *)
Definition aligned {state : Type} (r : Train.run state) : Prop :=
  List.length (Train.train_losses r) = List.length (Train.val_losses r) /\
  List.length (Train.train_dices r) = List.length (Train.val_losses r) /\
  List.length (Train.val_dices r) = List.length (Train.val_losses r).

(** The clock only moves forward through the stages of the slices of a
    patient, from [t] to [t_end]. *)
Fixpoint slices_chronological (t : Q) (cs : list Runtime.slice_clock)
    (t_end : Q) : Prop :=
  match cs with
  | [] => (t <= t_end)%Q
  | c :: rest =>
      (t <= Runtime.data_preprocessing_time_slice_t0 c
       /\ Runtime.data_preprocessing_time_slice_t0 c
          <= Runtime.data_preprocessing_time_slice_t1 c
       /\ Runtime.data_preprocessing_time_slice_t1 c
          <= Runtime.inference_time_slice_t0 c
       /\ Runtime.inference_time_slice_t0 c
          <= Runtime.inference_time_slice_t1 c
       /\ Runtime.inference_time_slice_t1 c
          <= Runtime.data_postprocessing_time_slice_t0 c
       /\ Runtime.data_postprocessing_time_slice_t0 c
          <= Runtime.data_postprocessing_time_slice_t1 c)%Q
      /\ slices_chronological (Runtime.data_postprocessing_time_slice_t1 c)
                              rest t_end
  end.

(** The readings of a patient are in the order the program takes them. *)
Definition chronological (p : Runtime.patient_clock) : Prop :=
  (Runtime.total_time_t0 p <= Runtime.loading_time_t0 p
   /\ Runtime.loading_time_t0 p <= Runtime.loading_time_t1 p)%Q
  /\ slices_chronological (Runtime.loading_time_t1 p) (Runtime.slice_clocks p)
                          (Runtime.total_time_t1 p).


End Vocabulary.

(* ===================================================================== *)
(** ** Concrete inputs *)
(* ===================================================================== *)

Module Examples.
Import Py.

Open Scope string_scope.

(** A data directory with one normal and two diseased patients, of 1, 1 and
    5 slices of two pixels each. *)
Definition vol_normal_1 : Asoca.volume :=
  {| Asoca.vol_dtype := Asoca.Int16; Asoca.vol_slices := [[10; 11]] |}.

Definition vol_diseased_1 : Asoca.volume :=
  {| Asoca.vol_dtype := Asoca.Int16; Asoca.vol_slices := [[20; 21]] |}.

Definition vol_diseased_2 : Asoca.volume :=
  {| Asoca.vol_dtype := Asoca.Int16;
     Asoca.vol_slices := [[30; 31]; [32; 33]; [34; 35]; [36; 37]; [38; 39]] |}.

Definition asoca_files : Asoca.files :=
  {| Asoca.normal_ctca := [("Normal_1.nrrd", vol_normal_1)];
     Asoca.normal_anno := [("Normal_1.nrrd", vol_normal_1)];
     Asoca.diseased_ctca := [("Diseased_1.nrrd", vol_diseased_1);
                             ("Diseased_2.nrrd", vol_diseased_2)];
     Asoca.diseased_anno := [("Diseased_1.nrrd", vol_diseased_1);
                             ("Diseased_2.nrrd", vol_diseased_2)] |}.

Definition asoca_dataset : Asoca.ASOCADataset :=
  {| Asoca.norm := false;
     Asoca.data_dir := asoca_files;
     Asoca.num_slices := [1; 1; 5];
     Asoca.num_normal := 1;
     Asoca.num_diseased := 2;
     Asoca.slice_cumsums := [1; 2; 7] |}.

(** Ten normal patients of one slice each and no diseased one; patient [k]
    holds the pixels [k] and [k+1].  The directory lists the files from
    [Normal_10.nrrd] down to [Normal_1.nrrd]. *)
Definition numbered_volume (k : Z) : Asoca.volume :=
  {| Asoca.vol_dtype := Asoca.Int16; Asoca.vol_slices := [[k; k + 1]] |}.

Definition ten_normals : Asoca.directory :=
  map (fun i => (Vocabulary.normal_name i, numbered_volume (Z.of_nat (i + 1))))
      (rev (seq 0 10)).

Definition ten_normal_files : Asoca.files :=
  {| Asoca.normal_ctca := ten_normals;
     Asoca.normal_anno := ten_normals;
     Asoca.diseased_ctca := [];
     Asoca.diseased_anno := [] |}.

(** A training run whose model is a counter of optimizer steps and whose
    losses are read off the image of the batch: the validation loss is NaN
    as long as at most one step was taken, and 1/2 afterwards. *)
Definition toy_batch : Train.batch unit unit :=
  {| Train.batch_images := tt; Train.batch_masks := tt; Train.batch_len := 50 |}.

Definition toy_model (training : bool) (st : nat) (_ : unit) : float :=
  if training then Fin 1
  else if (st <=? 1)%nat then NaN else Fin (1 # 2).

Definition toy_step (_ : unit -> float -> float) (st : nat)
    (_ : Train.batch unit unit) : nat := S st.

Definition toy_loss (_ : unit) (p : float) : float := p.

Definition toy_train (n : nat) : Train.run nat * result unit :=
  Train.train toy_model toy_step toy_loss toy_loss toy_loss
              {| Train.num_epochs := n; Train.loss := "dice" |}
              0%nat (fun _ => [toy_batch]) [toy_batch].

(** The same run with a model that is sound from the start: the validation
    loss is [1/(st+1)] after [st] steps. *)
Definition sound_model (training : bool) (st : nat) (_ : unit) : float :=
  Fin (1 # Pos.of_nat (S st)).

Definition sound_train (n : nat) : Train.run nat * result unit :=
  Train.train sound_model toy_step toy_loss toy_loss toy_loss
              {| Train.num_epochs := n; Train.loss := "gdlv" |}
              0%nat (fun _ => [toy_batch]) [toy_batch].

(** Two patients of two and one slices. *)
Definition clock_a : Runtime.slice_clock :=
  {| Runtime.data_preprocessing_time_slice_t0 := 1;
     Runtime.data_preprocessing_time_slice_t1 := 2;
     Runtime.inference_time_slice_t0 := 2;
     Runtime.inference_time_slice_t1 := 5;
     Runtime.data_postprocessing_time_slice_t0 := 5;
     Runtime.data_postprocessing_time_slice_t1 := 6 |}.

Definition clock_b : Runtime.slice_clock :=
  {| Runtime.data_preprocessing_time_slice_t0 := 6;
     Runtime.data_preprocessing_time_slice_t1 := 8;
     Runtime.inference_time_slice_t0 := 8;
     Runtime.inference_time_slice_t1 := 9;
     Runtime.data_postprocessing_time_slice_t0 := 9;
     Runtime.data_postprocessing_time_slice_t1 := 10 |}.

Definition patient_clocks : list Runtime.patient_clock :=
  [ {| Runtime.total_time_t0 := 0;
       Runtime.loading_time_t0 := 0;
       Runtime.loading_time_t1 := 1;
       Runtime.slice_clocks := [clock_a; clock_b];
       Runtime.total_time_t1 := 10 |};
    {| Runtime.total_time_t0 := 0;
       Runtime.loading_time_t0 := 0;
       Runtime.loading_time_t1 := 1;
       Runtime.slice_clocks := [clock_a];
       Runtime.total_time_t1 := 6 |} ].

(** A model with a frozen tensor between two trainable ones. *)
Definition small_model : ModelParameters.module :=
  [ {| ModelParameters.numel := 12; ModelParameters.requires_grad := true |};
    {| ModelParameters.numel := 100; ModelParameters.requires_grad := false |};
    {| ModelParameters.numel := 3; ModelParameters.requires_grad := true |} ].

(** The sound run on a validation set of 10 samples. *)
Definition small_batch : Train.batch unit unit :=
  {| Train.batch_images := tt; Train.batch_masks := tt; Train.batch_len := 10 |}.

Definition small_train (n : nat) : Train.run nat * result unit :=
  Train.train sound_model toy_step toy_loss toy_loss toy_loss
              {| Train.num_epochs := n; Train.loss := "dice" |}
              0%nat (fun _ => [toy_batch]) [small_batch].

(** A model without weights to speak of, whose Dice loss is 1/4 on every
    batch while the other two losses are 9/10. *)
Definition unit_batch : Train.batch unit unit :=
  {| Train.batch_images := tt; Train.batch_masks := tt; Train.batch_len := 8 |}.

Definition unit_model (_ : bool) (_ : nat) (_ : unit) : unit := tt.

Definition unit_step (_ : unit -> unit -> float) (st : nat)
    (_ : Train.batch unit unit) : nat := S st.

Definition quarter_dice (_ _ : unit) : float := Fin (1 # 4).

Definition other_loss (_ _ : unit) : float := Fin (9 # 10).


(** A patient without slices, read on a clock too coarse to move. *)
Definition still_clock : Runtime.patient_clock :=
  {| Runtime.total_time_t0 := 7;
     Runtime.loading_time_t0 := 7;
     Runtime.loading_time_t1 := 7;
     Runtime.slice_clocks := [];
     Runtime.total_time_t1 := 7 |}.

End Examples.

(* ===================================================================== *)
(** ** Properties of the dataset indexer *)
(* ===================================================================== *)

Module DatasetProps.
Import Py Asoca Vocabulary.

(** *** Sums and cumulative sums *)

Lemma fold_add_acc (l : list Z) (a : Z) :
  fold_left Z.add l a = a + fold_left Z.add l 0.
Proof.
  revert a. induction l as [|x l IH]; intros a; simpl.
  - lia.
  - rewrite (IH (a + x)), (IH x). lia.
Qed.

Lemma sum_cons (x : Z) (l : list Z) : sum (x :: l) = x + sum l.
Proof. unfold sum. simpl. apply fold_add_acc. Qed.

Lemma sum_app (l1 l2 : list Z) : sum (l1 ++ l2) = sum l1 + sum l2.
Proof.
  induction l1 as [|x l1 IH]; simpl.
  - reflexivity.
  - rewrite !sum_cons, IH. lia.
Qed.

Lemma sum_nonneg (l : list Z) : Forall (fun n => 0 <= n) l -> 0 <= sum l.
Proof.
  induction 1 as [|x l Hx _ IH].
  - unfold sum. simpl. lia.
  - rewrite sum_cons. lia.
Qed.

Lemma earlier_0 (ns : list Z) : earlier ns 0 = 0.
Proof. reflexivity. Qed.

Lemma earlier_cons (x : Z) (ns : list Z) (p : nat) :
  earlier (x :: ns) (S p) = x + earlier ns p.
Proof. unfold earlier. simpl. apply sum_cons. Qed.

Lemma earlier_nonneg (ns : list Z) (p : nat) :
  Forall (fun n => 0 <= n) ns -> 0 <= earlier ns p.
Proof.
  intros H. apply sum_nonneg. revert p.
  induction H as [|x l Hx _ IH]; intros [|p]; simpl; auto.
Qed.

Lemma earlier_S (ns : list Z) (p : nat) (n : Z) :
  nth_error ns p = Some n -> earlier ns (S p) = earlier ns p + n.
Proof.
  revert p. induction ns as [|x ns IH]; intros [|p] H; simpl in H; try discriminate.
  - injection H as ->. rewrite earlier_cons, !earlier_0. lia.
  - rewrite !earlier_cons, (IH _ H). lia.
Qed.

Lemma earlier_all (ns : list Z) (p : nat) :
  (List.length ns <= p)%nat -> earlier ns p = sum ns.
Proof. intros H. unfold earlier. now rewrite firstn_all2. Qed.

Lemma earlier_mono (ns : list Z) (p q : nat) :
  Forall (fun n => 0 <= n) ns -> (p <= q)%nat -> earlier ns p <= earlier ns q.
Proof.
  intros H. revert p q.
  induction H as [|x l Hx Hl IH]; intros p q Hpq.
  - unfold earlier. now rewrite !firstn_nil.
  - destruct p as [|p], q as [|q]; try lia.
    + rewrite earlier_0. apply earlier_nonneg. now constructor.
    + rewrite !earlier_cons. specialize (IH p q). lia.
Qed.

Lemma earlier_le_sum (ns : list Z) (p : nat) :
  Forall (fun n => 0 <= n) ns -> earlier ns p <= sum ns.
Proof.
  intros H. rewrite <- (earlier_all ns (Nat.max p (List.length ns))) by lia.
  apply earlier_mono; [assumption | lia].
Qed.

(** The entries of the cumulative sums are the counts up to and including
    each position. *)
Lemma nth_error_cumsum_from (ns : list Z) (acc : Z) (k : nat) :
  nth_error (cumsum_from acc ns) k =
  match nth_error ns k with
  | Some _ => Some (acc + earlier ns (S k))
  | None => None
  end.
Proof.
  revert acc k. induction ns as [|x ns IH]; intros acc [|k]; simpl; [reflexivity | reflexivity | | ].
  - rewrite earlier_cons, earlier_0. f_equal. lia.
  - rewrite IH. destruct (nth_error ns k); [|reflexivity].
    f_equal. rewrite (earlier_cons x ns (S k)). lia.
Qed.

Lemma length_cumsum_from (ns : list Z) (acc : Z) :
  List.length (cumsum_from acc ns) = List.length ns.
Proof. revert acc. induction ns; intros; simpl; auto. Qed.

(** The first position whose cumulative sum exceeds [index] is the one whose
    block of flat indices holds [index]. *)
Lemma first_gt_block (ns : list Z) (acc index : Z) (i p : nat) :
  Forall (fun n => 0 <= n) ns -> acc <= index ->
  first_row (argwhere_from i (gt_mask (cumsum_from acc ns) index)) = Ok p <->
  exists k n, p = (i + k)%nat /\ nth_error ns k = Some n /\
              acc + earlier ns k <= index < acc + earlier ns k + n.
Proof.
  intros H. revert acc i. induction H as [|x ns Hx Hns IH]; intros acc i Hacc.
  - simpl. split; [discriminate|]. intros (k & n & _ & Hk & _).
    destruct k; discriminate.
  - simpl. destruct (index <? acc + x) eqn:E.
    + apply Z.ltb_lt in E. simpl. split.
      * intros [= <-]. exists 0%nat, x. rewrite earlier_0. simpl.
        split; [lia|]. split; [reflexivity|lia].
      * intros (k & n & -> & Hk & Hb). destruct k as [|k]; [f_equal; lia|].
        rewrite earlier_cons in Hb.
        pose proof (earlier_nonneg ns k Hns). lia.
    + apply Z.ltb_ge in E. rewrite (IH (acc + x) (S i)) by lia. split.
      * intros (k & n & -> & Hk & Hb). exists (S k), n.
        rewrite earlier_cons. simpl. split; [lia|]. split; [assumption|lia].
      * intros (k & n & -> & Hk & Hb). destruct k as [|k].
        -- rewrite earlier_0 in Hb. simpl in Hk. injection Hk as ->. lia.
        -- exists k, n. rewrite earlier_cons in Hb. simpl in Hk.
           split; [lia|]. split; [assumption|lia].
Qed.

(** A flat index below the total lies in the block of some patient. *)
Lemma block_exists (ns : list Z) (index : Z) :
  Forall (fun n => 0 <= n) ns -> 0 <= index < sum ns ->
  exists k n, nth_error ns k = Some n /\
              earlier ns k <= index < earlier ns k + n.
Proof.
  intros H. revert index. induction H as [|x ns Hx Hns IH]; intros index Hi.
  - unfold sum in Hi. simpl in Hi. lia.
  - rewrite sum_cons in Hi. destruct (Z_lt_le_dec index x) as [Hlt|Hge].
    + exists 0%nat, x. rewrite earlier_0. simpl. split; [reflexivity|lia].
    + destruct (IH (index - x)) as (k & n & Hk & Hb); [lia|].
      exists (S k), n. rewrite earlier_cons. simpl. split; [assumption|lia].
Qed.

(** *** The constructor *)

Lemma read_extents_ok (d : directory) (stem : string) (count : nat) :
  forall (i : nat) (acc ns : list Z),
    read_extents d stem i count acc = Ok ns ->
    exists vols,
      List.length vols = count /\
      ns = acc ++ map shape_last vols /\
      forall k v, nth_error vols k = Some v ->
        nrrd_read d (stem ++ str_of_nat (i + k + 1) ++ ".nrrd") = Ok v.
Proof.
  induction count as [|c IH]; intros i acc ns H; simpl in H.
  - injection H as <-. exists []. rewrite app_nil_r.
    repeat split; auto. intros [|k] v Hk; discriminate.
  - destruct (nrrd_read d (stem ++ str_of_nat (i + 1) ++ ".nrrd")) as [data|e] eqn:E;
      simpl in H; [|discriminate].
    destruct (IH _ _ _ H) as (vols & Hlen & Hns & Hread).
    exists (data :: vols). simpl. split; [lia|]. split.
    + rewrite Hns, <- app_assoc. reflexivity.
    + intros [|k] v Hk; simpl in Hk.
      * injection Hk as <-. now rewrite Nat.add_0_r.
      * replace (i + S k + 1)%nat with (S i + k + 1)%nat by lia. now apply Hread.
Qed.

(** Reading succeeds as soon as the numbered files are there. *)
Lemma read_extents_total (d : directory) (stem : string) (count : nat) :
  forall (i : nat) (acc : list Z),
    (forall k, (k < count)%nat ->
       is_ok (nrrd_read d (stem ++ str_of_nat (i + k + 1) ++ ".nrrd")) = true) ->
    is_ok (read_extents d stem i count acc) = true.
Proof.
  induction count as [|c IH]; intros i acc H; simpl; [reflexivity|].
  pose proof (H 0%nat ltac:(lia)) as H0. rewrite Nat.add_0_r in H0.
  destruct (nrrd_read d (stem ++ str_of_nat (i + 1) ++ ".nrrd")); [|discriminate].
  simpl. apply IH. intros k Hk.
  replace (S i + k + 1)%nat with (i + S k + 1)%nat by lia. apply H. lia.
Qed.

Lemma shape_last_nonneg (vols : list volume) :
  Forall (fun n => 0 <= n) (map shape_last vols).
Proof.
  induction vols; simpl; constructor; auto. unfold shape_last. lia.
Qed.

(** What the constructor leaves in the object. *)
Lemma init_inv (norm_flag : bool) (fs : files) (ds : ASOCADataset) :
  init norm_flag fs = Ok ds ->
  data_dir ds = fs /\
  slice_cumsums ds = cumsum (num_slices ds) /\
  exists normal diseased,
    List.length normal = num_normal ds /\
    List.length diseased = num_diseased ds /\
    num_slices ds = map shape_last (normal ++ diseased) /\
    (forall i v, nth_error normal i = Some v ->
       nrrd_read (normal_ctca fs) (normal_name i) = Ok v) /\
    (forall i v, nth_error diseased i = Some v ->
       nrrd_read (diseased_ctca fs) (diseased_name i) = Ok v) /\
    num_normal ds = List.length (glob (normal_ctca fs) "Normal") /\
    num_diseased ds = List.length (glob (diseased_ctca fs) "Diseased").
Proof.
  unfold init, get_num_slices. intros H.
  destruct (read_extents (normal_ctca fs) "Normal_" 0 _ []) as [ns1|e] eqn:E1;
    simpl in H; [|discriminate].
  destruct (read_extents (diseased_ctca fs) "Diseased_" 0 _ ns1) as [ns2|e] eqn:E2;
    simpl in H; [|discriminate].
  injection H as <-. simpl.
  destruct (read_extents_ok _ _ _ _ _ _ E1) as (normal & Hn & -> & Hrn).
  destruct (read_extents_ok _ _ _ _ _ _ E2) as (diseased & Hd & -> & Hrd).
  split; [reflexivity|]. split; [reflexivity|].
  exists normal, diseased. simpl. rewrite map_app.
  repeat split; auto.
Qed.

Lemma constructed_inv (ds : ASOCADataset) :
  constructed ds ->
  slice_cumsums ds = cumsum (num_slices ds) /\
  Forall (fun n => 0 <= n) (num_slices ds).
Proof.
  intros (nf & fs & H).
  destruct (init_inv _ _ _ H) as (_ & Hc & normal & diseased & _ & _ & Hns & _).
  split; [assumption|]. rewrite Hns. apply shape_last_nonneg.
Qed.

(** *** The lookup *)

(** The lookup gives the patient whose block of flat indices holds the
    index, and the index modulo the patient's slice count. *)
Lemma locate_block (ds : ASOCADataset) (index : Z) (p : nat) (s : Z) :
  constructed ds -> 0 <= index ->
  locate ds index = Ok (p, s) <->
  exists n, nth_error (num_slices ds) p = Some n /\
            earlier (num_slices ds) p <= index < earlier (num_slices ds) p + n /\
            s = index mod n.
Proof.
  intros Hc Hi. destruct (constructed_inv ds Hc) as [Hcs Hnn].
  unfold locate. rewrite Hcs. unfold cumsum, argwhere.
  split.
  - destruct (first_row _) as [q|e] eqn:E; simpl; [|discriminate].
    apply (first_gt_block (num_slices ds) 0 index 0) in E; [|assumption|lia].
    destruct E as (k & n & -> & Hk & Hb).
    simpl. unfold list_get. rewrite Hk. simpl. unfold int_mod.
    destruct (n =? 0) eqn:En; [apply Z.eqb_eq in En; lia|]. simpl.
    intros [= <- <-]. exists n. repeat split; auto; lia.
  - intros (n & Hk & Hb & ->).
    assert (E : first_row (argwhere_from 0 (gt_mask (cumsum_from 0 (num_slices ds)) index)) = Ok p).
    { apply first_gt_block; [assumption|lia|].
      exists p, n. repeat split; auto; lia. }
    rewrite E. simpl. unfold list_get. rewrite Hk. simpl. unfold int_mod.
    destruct (n =? 0) eqn:En; [apply Z.eqb_eq in En; lia|]. reflexivity.
Qed.

(** Two flat indices of one block with the same residue are equal. *)
Lemma same_block_same_residue (e n i1 i2 : Z) :
  e <= i1 < e + n -> e <= i2 < e + n -> i1 mod n = i2 mod n -> i1 = i2.
Proof.
  intros H1 H2 Hm.
  assert (Hn : 0 < n) by lia.
  pose proof (Z.div_mod i1 n ltac:(lia)) as D1.
  pose proof (Z.div_mod i2 n ltac:(lia)) as D2.
  rewrite Hm in D1.
  assert (i1 - i2 = n * (i1 / n - i2 / n)) by lia.
  assert (- n < n * (i1 / n - i2 / n) < n) by lia.
  assert (i1 / n - i2 / n = 0) by nia.
  lia.
Qed.

(** Inside the range of the dataset the lookup returns, and the slice index
    is below the slice count recorded for the patient. *)
Lemma locate_in_bounds (ds : ASOCADataset) (index : Z) :
  constructed ds -> 0 <= index < len ds ->
  exists p n,
    nth_error (num_slices ds) p = Some n /\
    earlier (num_slices ds) p <= index < earlier (num_slices ds) p + n /\
    locate ds index = Ok (p, index mod n) /\
    0 <= index mod n < n.
Proof.
  intros Hc Hi. destruct (constructed_inv ds Hc) as [Hcs Hnn].
  destruct (block_exists (num_slices ds) index Hnn Hi) as (p & n & Hp & Hb).
  exists p, n. repeat split; try assumption; try lia.
  - apply locate_block; [assumption|lia|]. exists n. auto.
  - apply Z.mod_pos_bound. lia.
  - apply Z.mod_pos_bound. lia.
Qed.

(** The slice is inside the loaded volume whenever that volume is the one
    whose extent was recorded for the patient. *)
Lemma slice_access_in_bounds (ds : ASOCADataset) (index : Z) (p : nat) (s : Z)
    (v : volume) :
  constructed ds -> 0 <= index < len ds ->
  locate ds index = Ok (p, s) ->
  nth_error (num_slices ds) p = Some (shape_last v) ->
  is_ok (axis_get (vol_slices v) s) = true.
Proof.
  intros Hc Hi Hl Hn.
  apply locate_block in Hl; [|assumption|lia].
  destruct Hl as (n & Hn' & Hb & ->). rewrite Hn in Hn'. injection Hn' as <-.
  pose proof (Z.mod_pos_bound index (shape_last v) ltac:(lia)) as Hm.
  unfold axis_get. fold (shape_last v).
  destruct (0 <=? index mod shape_last v) eqn:E1; [|apply Z.leb_gt in E1; lia].
  destruct (index mod shape_last v <? shape_last v) eqn:E2;
    [|apply Z.ltb_ge in E2; lia].
  simpl. unfold list_get.
  destruct (nth_error (vol_slices v) (Z.to_nat (index mod shape_last v))) eqn:E;
    [reflexivity|].
  apply nth_error_None in E. unfold shape_last in *. lia.
Qed.

Lemma last_cons_default {A : Type} (a d : A) (l : list A) :
  last (a :: l) d = last l a.
Proof.
  revert a d. induction l as [|b l IH]; intros a d; [reflexivity|].
  change (last (a :: b :: l) d) with (last (b :: l) d).
  rewrite (IH b d), (IH b a). reflexivity.
Qed.

Lemma last_cumsum_from (ns : list Z) (acc : Z) :
  last (cumsum_from acc ns) acc = acc + sum ns.
Proof.
  revert acc. induction ns as [|x ns IH]; intros acc.
  - unfold sum. simpl. lia.
  - simpl cumsum_from. rewrite last_cons_default, IH, sum_cons. lia.
Qed.

(** *** The claims *)

(** C1, as the code has it.  For a dataset built by the constructor and every
    flat index [0 <= index < len], the lookup returns the pair [(p, s)] where
    [p] is the least position whose cumulative sum exceeds the index, and
    [s] is the index modulo the slice count of that patient (not the index
    minus the cumulative count of the earlier patients, although that
    difference lies in the same range).  Every slice of every patient is
    still the image of exactly one flat index. *)
Theorem index_resolution (ds : ASOCADataset) :
  constructed ds ->
  (forall index, 0 <= index < len ds ->
     exists p n c,
       nth_error (num_slices ds) p = Some n /\
       nth_error (slice_cumsums ds) p = Some c /\
       index < c /\
       (forall q c', (q < p)%nat ->
          nth_error (slice_cumsums ds) q = Some c' -> c' <= index) /\
       resolves ds index p (index mod n) /\
       0 <= index - earlier (num_slices ds) p < n /\
       0 <= index mod n < n) /\
  (forall p n s, nth_error (num_slices ds) p = Some n -> 0 <= s < n ->
     exists index,
       0 <= index < len ds /\ resolves ds index p s /\
       forall index', 0 <= index' < len ds -> resolves ds index' p s ->
                      index' = index).
Proof.
  intros Hc. destruct (constructed_inv ds Hc) as [Hcs Hnn]. split.
  - intros index Hi.
    destruct (locate_in_bounds ds index Hc Hi) as (p & n & Hp & Hb & Hl & Hm).
    exists p, n, (earlier (num_slices ds) p + n).
    split; [assumption|]. split.
    { rewrite Hcs. unfold cumsum. rewrite nth_error_cumsum_from, Hp.
      rewrite (earlier_S _ _ _ Hp). reflexivity. }
    split; [lia|]. split.
    { intros q c' Hq Hc'. rewrite Hcs in Hc'. unfold cumsum in Hc'.
      rewrite nth_error_cumsum_from in Hc'.
      destruct (nth_error (num_slices ds) q); [|discriminate].
      injection Hc' as <-.
      pose proof (earlier_mono (num_slices ds) (S q) p Hnn ltac:(lia)). lia. }
    split; [exact Hl|]. split; lia.
  - intros p n s Hp Hs.
    set (e := earlier (num_slices ds) p).
    pose proof (earlier_nonneg (num_slices ds) p Hnn) as He. fold e in He.
    pose proof (earlier_le_sum (num_slices ds) (S p) Hnn) as Hle.
    rewrite (earlier_S _ _ _ Hp) in Hle. fold e in Hle.
    pose proof (Z.mod_pos_bound (s - e) n ltac:(lia)) as Hm.
    exists (e + (s - e) mod n). unfold len. split; [lia|]. split.
    + apply locate_block; [assumption|lia|]. exists n.
      split; [assumption|]. fold e. split; [lia|].
      rewrite Z.add_mod_idemp_r by lia.
      replace (e + (s - e)) with s by lia. symmetry. apply Z.mod_small. lia.
    + intros index' Hi' Hr.
      apply locate_block in Hr; [|assumption|lia].
      destruct Hr as (n' & Hp' & Hb' & Hs'). rewrite Hp in Hp'.
      injection Hp' as <-. fold e in Hb'.
      apply (same_block_same_residue e n); [assumption|lia|].
      rewrite <- Hs'. rewrite Z.add_mod_idemp_r by lia.
      replace (e + (s - e)) with s by lia. symmetry. apply Z.mod_small. lia.
Qed.

Lemma index_resolution_witness :
  constructed Examples.asoca_dataset /\
  exists index,
    0 <= index < len Examples.asoca_dataset /\
    resolves Examples.asoca_dataset index 2 4.
Proof.
  assert (Hc : constructed Examples.asoca_dataset).
  { exists false, Examples.asoca_files. reflexivity. }
  split; [exact Hc|].
  destruct (index_resolution Examples.asoca_dataset Hc) as [_ H].
  destruct (H 2%nat 5 4 eq_refl ltac:(lia)) as (index & Hi & Hr & _).
  exists index. split; assumption.
Defined.

(** C1, as it is worded, fails: on the dataset of 1, 1 and 5 slices the flat
    index 3 belongs to the third patient, whose earlier patients hold 2
    slices, and the lookup returns slice [3 mod 5 = 3], not [3 - 2 = 1]. *)
Lemma offset_by_subtraction_fails : ~ offset_by_subtraction.
Proof.
  intros H.
  destruct (H Examples.asoca_dataset 3) as [p Hp].
  - exists false, Examples.asoca_files. reflexivity.
  - change (len Examples.asoca_dataset) with 7. lia.
  - unfold resolves in Hp.
    assert (E : locate Examples.asoca_dataset 3 = Ok (2%nat, 3)) by reflexivity.
    rewrite E in Hp. injection Hp as <- Hp. vm_compute in Hp. discriminate.
Qed.

(** C3.  The slice counts are read off the files: the list holds the extent
    of the last axis of [Normal_1.nrrd] .. [Normal_{num_normal}.nrrd], then of
    [Diseased_1.nrrd] .. [Diseased_{num_diseased}.nrrd]; [slice_cumsums] is
    its running prefix sum; and [__len__] is the sum of the list, which is
    the last prefix sum. *)
Theorem slice_counts_file_derived (norm_flag : bool) (fs : files)
    (ds : ASOCADataset) :
  init norm_flag fs = Ok ds ->
  (exists normal diseased,
     List.length normal = num_normal ds /\
     List.length diseased = num_diseased ds /\
     num_slices ds = map shape_last (normal ++ diseased) /\
     (forall i v, nth_error normal i = Some v ->
        nrrd_read (normal_ctca fs) (normal_name i) = Ok v) /\
     (forall i v, nth_error diseased i = Some v ->
        nrrd_read (diseased_ctca fs) (diseased_name i) = Ok v)) /\
  List.length (slice_cumsums ds) = List.length (num_slices ds) /\
  (forall k c, nth_error (slice_cumsums ds) k = Some c ->
     c = sum (firstn (S k) (num_slices ds))) /\
  len ds = sum (num_slices ds) /\
  last (slice_cumsums ds) 0 = len ds.
Proof.
  intros H.
  destruct (init_inv _ _ _ H)
    as (_ & Hcs & normal & diseased & Hn & Hd & Hns & Hrn & Hrd & _).
  split; [exists normal, diseased; repeat split; assumption|].
  rewrite Hcs. unfold cumsum. split; [apply length_cumsum_from|]. split.
  - intros k c Hk. rewrite nth_error_cumsum_from in Hk.
    destruct (nth_error (num_slices ds) k); [|discriminate].
    injection Hk as <-. unfold earlier. lia.
  - split; [reflexivity|]. rewrite last_cumsum_from. unfold len. lia.
Qed.

Lemma slice_counts_file_derived_witness :
  init false Examples.asoca_files = Ok Examples.asoca_dataset /\
  List.length (slice_cumsums Examples.asoca_dataset) = 3%nat /\
  last (slice_cumsums Examples.asoca_dataset) 0 = len Examples.asoca_dataset.
Proof.
  assert (Hi : init false Examples.asoca_files = Ok Examples.asoca_dataset)
    by reflexivity.
  split; [exact Hi|].
  destruct (slice_counts_file_derived false Examples.asoca_files
                                      Examples.asoca_dataset Hi)
    as (_ & Hl & _ & _ & Hlast).
  split; [exact Hl | exact Hlast].
Defined.

(** C2, at a failing input.  With one normal and two diseased patients the
    flat index 5 belongs to position 2, the second diseased patient, whose
    slice count was read from [Diseased_2.nrrd]; the files selected are the
    first match of [Diseased_{2 % 1 + 1}*], that is [Diseased_1.nrrd], and
    the sample returned is a slice of that other patient. *)
Theorem diseased_file_taken_modulo_num_normal :
  init false Examples.asoca_files = Ok Examples.asoca_dataset /\
  0 <= 5 < len Examples.asoca_dataset /\
  locate Examples.asoca_dataset 5 = Ok (2%nat, 0) /\
  (num_normal Examples.asoca_dataset <= 2)%nat /\
  diseased_name (2 - num_normal Examples.asoca_dataset) = "Diseased_2.nrrd"%string /\
  nrrd_read (diseased_ctca Examples.asoca_files) "Diseased_2.nrrd"
  = Ok Examples.vol_diseased_2 /\
  select_paths Examples.asoca_dataset 2
  = Ok (("Diseased_1.nrrd"%string, Examples.vol_diseased_1),
        ("Diseased_1.nrrd"%string, Examples.vol_diseased_1)) /\
  getitem Examples.asoca_dataset 5
  = Ok {| sample_image := Raw Int16 [20; 21];
          sample_mask := Examples.vol_diseased_1 |}.
Proof.
  change (len Examples.asoca_dataset) with 7.
  repeat split; try reflexivity; try lia.
  simpl. lia.
Qed.

(** The glob of lines 39-40 has no suffix after the number: with ten normal
    patients listed from [Normal_10.nrrd] down, the flat index 0 belongs to
    patient 1 and the first match of [Normal_1*] is [Normal_10.nrrd]. *)
Lemma glob_prefix_takes_other_patient :
  exists ds,
    init false Examples.ten_normal_files = Ok ds /\
    locate ds 0 = Ok (0%nat, 0) /\
    nrrd_read (normal_ctca Examples.ten_normal_files) (normal_name 0)
    = Ok (Examples.numbered_volume 1) /\
    getitem ds 0
    = Ok {| sample_image := Raw Int16 [10; 11];
            sample_mask := Examples.numbered_volume 10 |}.
Proof.
  eexists. split; [vm_compute; reflexivity|].
  repeat split; vm_compute; reflexivity.
Qed.

(** C8, at a failing input.  Every patient has a positive slice count and the
    flat index 2 is in range; the lookup returns slice 2 of position 2, below
    that patient's 5 slices, but the volume loaded for the position is
    [Diseased_1.nrrd], of one slice, and the slice access raises. *)
Theorem slice_access_out_of_bounds :
  init false Examples.asoca_files = Ok Examples.asoca_dataset /\
  Forall (fun n => 0 < n) (num_slices Examples.asoca_dataset) /\
  0 <= 2 < len Examples.asoca_dataset /\
  locate Examples.asoca_dataset 2 = Ok (2%nat, 2) /\
  nth_error (num_slices Examples.asoca_dataset) 2 = Some 5 /\
  getitem Examples.asoca_dataset 2 = Raise IndexError.
Proof.
  change (len Examples.asoca_dataset) with 7.
  repeat split; try reflexivity; try lia.
  repeat constructor; lia.
Qed.

(** *** The normalisation of a slice *)

Lemma fold_min_spec (r : list Z) (x : Z) :
  In (fold_left Z.min r x) (x :: r) /\
  forall y, In y (x :: r) -> fold_left Z.min r x <= y.
Proof.
  revert x. induction r as [|a r IH]; intros x; simpl.
  - split; [now left|]. intros y [<-|[]]. lia.
  - destruct (IH (Z.min x a)) as [Hin Hle]. split.
    + destruct Hin as [Hm|Hin]; [|now right; right].
      rewrite <- Hm. destruct (Z.min_spec x a) as [[_ ->]|[_ ->]]; auto.
    + intros y Hy.
      pose proof (Hle (Z.min x a) (or_introl eq_refl)) as H0.
      destruct Hy as [<-|[<-|Hy]]; [lia|lia|]. apply Hle. now right.
Qed.

Lemma fold_max_spec (r : list Z) (x : Z) :
  In (fold_left Z.max r x) (x :: r) /\
  forall y, In y (x :: r) -> y <= fold_left Z.max r x.
Proof.
  revert x. induction r as [|a r IH]; intros x; simpl.
  - split; [now left|]. intros y [<-|[]]. lia.
  - destruct (IH (Z.max x a)) as [Hin Hle]. split.
    + destruct Hin as [Hm|Hin]; [|now right; right].
      rewrite <- Hm. destruct (Z.max_spec x a) as [[_ ->]|[_ ->]]; auto.
    + intros y Hy.
      pose proof (Hle (Z.max x a) (or_introl eq_refl)) as H0.
      destruct Hy as [<-|[<-|Hy]]; [lia|lia|]. apply Hle. now right.
Qed.

Lemma amin_spec (px : list Z) :
  px <> [] ->
  exists m, amin px = Ok m /\ In m px /\ forall y, In y px -> m <= y.
Proof.
  destruct px as [|x r]; [congruence|]. intros _.
  exists (fold_left Z.min r x). split; [reflexivity|]. apply fold_min_spec.
Qed.

Lemma amax_spec (px : list Z) :
  px <> [] ->
  exists m, amax px = Ok m /\ In m px /\ forall y, In y px -> y <= m.
Proof.
  destruct px as [|x r]; [congruence|]. intros _.
  exists (fold_left Z.max r x). split; [reflexivity|]. apply fold_max_spec.
Qed.

(** A value between zero and the largest of the type is kept as it is. *)
Lemma wrap_small (t : dtype) (z : Z) :
  0 <= z <= dtype_max t -> wrap t z = z.
Proof.
  destruct t; unfold wrap, dtype_max; simpl; intros H;
    rewrite Z.mod_small by lia; lia.
Qed.

Lemma wrap_0 (t : dtype) : wrap t 0 = 0.
Proof. destruct t; reflexivity. Qed.

Lemma inject_Z_nonzero (d : Z) : d <> 0 -> ~ (inject_Z d == 0)%Q.
Proof. unfold Qeq. simpl. lia. Qed.

Lemma divide_zero (d : Z) : d <> 0 -> np_true_divide 0 d = Fin 0.
Proof.
  intros Hd. unfold np_true_divide. destruct (d =? 0) eqn:E.
  - apply Z.eqb_eq in E. contradiction.
  - unfold fin. apply f_equal. transitivity (Qred 0); [|reflexivity].
    apply Qred_complete. unfold Qdiv. apply Qmult_0_l.
Qed.

Lemma divide_self (d : Z) : d <> 0 -> np_true_divide d d = Fin 1.
Proof.
  intros Hd. unfold np_true_divide. destruct (d =? 0) eqn:E.
  - apply Z.eqb_eq in E. contradiction.
  - unfold fin. apply f_equal. transitivity (Qred 1); [|reflexivity].
    apply Qred_complete. unfold Qdiv. apply Qmult_inv_r.
    now apply inject_Z_nonzero.
Qed.

Lemma divide_between (a d : Z) :
  0 <= a <= d -> 0 < d ->
  exists q, np_true_divide a d = Fin q /\ (0 <= q <= 1)%Q.
Proof.
  intros Ha Hd. unfold np_true_divide. destruct (d =? 0) eqn:E.
  - apply Z.eqb_eq in E. lia.
  - exists (Qred (inject_Z a / inject_Z d)). split; [reflexivity|].
    rewrite Qred_correct.
    assert (Hd' : (0 < inject_Z d)%Q).
    { change 0%Q with (inject_Z 0). rewrite <- Zlt_Qlt. lia. }
    split.
    + apply Qle_shift_div_l; [assumption|]. rewrite Qmult_0_l.
      change 0%Q with (inject_Z 0). rewrite <- Zle_Qle. lia.
    + apply Qle_shift_div_r; [assumption|]. rewrite Qmult_1_l.
      rewrite <- Zle_Qle. lia.
Qed.

(** Without wrap-around the shifted slice is the exact difference, and so is
    its absolute value. *)
Lemma shifted_exact (t : dtype) (px : list Z) (m : Z) :
  spread_fits t px -> In m px -> (forall y, In y px -> m <= y) ->
  map (fun x => np_sub t x m) px = map (fun x => x - m) px /\
  map (np_abs t) (map (fun x => x - m) px) = map (fun x => x - m) px.
Proof.
  intros Hfit Hm Hmin. split.
  - apply map_ext_in. intros x Hx. unfold np_sub. apply wrap_small.
    specialize (Hfit x m Hx Hm). specialize (Hmin x Hx). lia.
  - rewrite map_map. apply map_ext_in. intros x Hx. unfold np_abs.
    specialize (Hfit x m Hx Hm). specialize (Hmin x Hx).
    rewrite Z.abs_eq by lia. apply wrap_small. lia.
Qed.

(** In an unsigned type the spread of a slice is always a value of the
    type. *)
Lemma unsigned_spread_fits (t : dtype) (px : list Z) :
  is_signed t = false -> Forall (in_range t) px -> spread_fits t px.
Proof.
  intros Ht Hpx a b Ha Hb. rewrite Forall_forall in Hpx.
  pose proof (Hpx a Ha) as [_ Ha']. pose proof (Hpx b Hb) as [Hb' _].
  unfold dtype_min in Hb'. rewrite Ht in Hb'. lia.
Qed.

(** The two statements of the profiler are those of the dataset. *)
Lemma preprocess_is_normalize (t : dtype) (px : list Z) :
  Runtime.preprocess t px = normalize t px.
Proof. reflexivity. Qed.

(** With [norm] set, the image of a sample is the normalisation of the slice
    taken from the loaded volume; without it, the slice itself. *)
Lemma getitem_image (ds : ASOCADataset) (index : Z) (s : sample) :
  getitem ds index = Ok s ->
  exists t px,
    if norm ds
    then exists out, normalize t px = Ok out /\ sample_image s = Normalized out
    else sample_image s = Raw t px.
Proof.
  unfold getitem.
  destruct (locate ds index) as [[p i]|]; simpl; [|discriminate].
  destruct (select_paths ds p) as [[ctca anno]|]; simpl; [|discriminate].
  destruct (axis_get (vol_slices (snd ctca)) i) as [px|]; simpl; [|discriminate].
  intros H. exists (vol_dtype (snd ctca)), px. destruct (norm ds).
  - destruct (normalize (vol_dtype (snd ctca)) px) as [out|]; simpl in H;
      [|discriminate].
    injection H as <-. exists out. split; reflexivity.
  - simpl in H. injection H as <-. reflexivity.
Qed.

(** C10, as the code has it.  The normalisation divides, without a guard, by
    the largest absolute value of the slice minus its minimum, computed in
    the integer type of the volume.  For a slice of at least two distinct
    values whose spread (maximum minus minimum) is a value of that type, the
    divisor is not zero and the normalised slice has minimum exactly 0 and
    maximum exactly 1; for a constant slice the divisor is 0 and every
    quotient is 0/0, a NaN.  The profiler's preprocessing is the same. *)
Theorem normalisation_range (t : dtype) (px : list Z) :
  (two_values px -> spread_fits t px ->
   exists d out,
     norm_divisor t px = Ok d /\ d <> 0 /\
     normalize t px = Ok out /\ unit_range out /\
     Runtime.preprocess t px = Ok out) /\
  (constant px ->
   norm_divisor t px = Ok 0 /\
   normalize t px = Ok (map (fun _ => NaN) px) /\
   Runtime.preprocess t px = Ok (map (fun _ => NaN) px)).
Proof.
  split.
  - intros (a & b & Ha & Hb & Hab) Hfit.
    assert (Hne : px <> []) by (intros ->; contradiction).
    destruct (amin_spec px Hne) as (m & Em & Hm & Hmin).
    destruct (shifted_exact t px m Hfit Hm Hmin) as [Hsub Habs].
    assert (Hne' : map (fun x => x - m) px <> []).
    { destruct px; [congruence|discriminate]. }
    destruct (amax_spec _ Hne') as (d & Ed & Hd & Hmax).
    apply in_map_iff in Hd. destruct Hd as (M & HM & HMin).
    assert (Hpos : 0 < d).
    { assert (a - m <= d) by (apply Hmax, in_map_iff; eauto).
      assert (b - m <= d) by (apply Hmax, in_map_iff; eauto).
      pose proof (Hmin a Ha). pose proof (Hmin b Hb). lia. }
    exists d, (map (fun x => np_true_divide x d) (map (fun x => x - m) px)).
    assert (En : normalize t px
                 = Ok (map (fun x => np_true_divide x d)
                           (map (fun x => x - m) px))).
    { unfold normalize. rewrite Em. simpl. rewrite Hsub, Habs, Ed. reflexivity. }
    split.
    { unfold norm_divisor. rewrite Em. simpl. rewrite Hsub, Habs. exact Ed. }
    split; [lia|]. split; [exact En|]. split; [|exact En].
    unfold unit_range. split; [|split].
    + apply in_map_iff. exists 0. split; [apply divide_zero; lia|].
      apply in_map_iff. exists m. split; [lia|assumption].
    + apply in_map_iff. exists d. split; [apply divide_self; lia|].
      apply in_map_iff. exists M. split; assumption.
    + apply Forall_forall. intros v Hv.
      apply in_map_iff in Hv. destruct Hv as (y & <- & Hy).
      apply divide_between; [|assumption].
      split; [|now apply Hmax].
      apply in_map_iff in Hy. destruct Hy as (x & <- & Hx).
      specialize (Hmin x Hx). lia.
  - intros [Hne Hconst].
    destruct (amin_spec px Hne) as (m & Em & Hm & _).
    assert (Hsub : map (fun x => np_sub t x m) px = map (fun _ => 0) px).
    { apply map_ext_in. intros x Hx. rewrite (Hconst x m Hx Hm).
      unfold np_sub. rewrite Z.sub_diag. apply wrap_0. }
    assert (Habs : map (np_abs t) (map (fun _ : Z => 0) px) = map (fun _ => 0) px).
    { rewrite map_map. apply map_ext. intros _. apply wrap_0. }
    assert (Ed : amax (map (fun _ : Z => 0) px) = Ok 0).
    { destruct (amax_spec (map (fun _ : Z => 0) px)) as (d & Ed & Hd & _).
      - destruct px; [congruence|discriminate].
      - apply in_map_iff in Hd. destruct Hd as (_ & <- & _). exact Ed. }
    assert (En : normalize t px = Ok (map (fun _ => NaN) px)).
    { unfold normalize. rewrite Em. simpl. rewrite Hsub, Habs, Ed. simpl.
      rewrite map_map. reflexivity. }
    split; [|split; exact En].
    unfold norm_divisor. rewrite Em. simpl. rewrite Hsub, Habs. exact Ed.
Qed.

Lemma normalisation_range_witness :
  (two_values [-1000; 0; 3000] /\ spread_fits Int16 [-1000; 0; 3000] /\
   exists d out,
     norm_divisor Int16 [-1000; 0; 3000] = Ok d /\ d <> 0 /\
     normalize Int16 [-1000; 0; 3000] = Ok out /\ unit_range out /\
     Runtime.preprocess Int16 [-1000; 0; 3000] = Ok out) /\
  (constant [5; 5] /\
   norm_divisor UInt8 [5; 5] = Ok 0 /\
   normalize UInt8 [5; 5] = Ok (map (fun _ => NaN) [5; 5]) /\
   Runtime.preprocess UInt8 [5; 5] = Ok (map (fun _ => NaN) [5; 5])).
Proof.
  assert (H2 : two_values [-1000; 0; 3000]).
  { exists (-1000), 0. simpl. repeat split; auto. lia. }
  assert (Hf : spread_fits Int16 [-1000; 0; 3000]).
  { intros a b Ha Hb. unfold dtype_max. simpl in *.
    destruct Ha as [<-|[<-|[<-|[]]]], Hb as [<-|[<-|[<-|[]]]]; lia. }
  assert (Hc : constant [5; 5]).
  { split; [discriminate|]. intros a b Ha Hb. simpl in *.
    destruct Ha as [<-|[<-|[]]], Hb as [<-|[<-|[]]]; reflexivity. }
  split.
  - split; [exact H2|]. split; [exact Hf|].
    exact (proj1 (normalisation_range Int16 [-1000; 0; 3000]) H2 Hf).
  - split; [exact Hc|].
    exact (proj2 (normalisation_range UInt8 [5; 5]) Hc).
Defined.

(** C10, as it is worded, fails: the 16-bit slice of the two values 0 and
    -32768 has the shifted values -32768 (32768 wrapped) and 0, whose
    absolute values are -32768 and 0, so the divisor is 0. *)
Lemma normalisation_total_fails : ~ normalisation_total.
Proof.
  intros H.
  destruct (H Int16 [0; -32768]) as (d & out & Hd & Hnz & _).
  - repeat constructor; unfold dtype_min, dtype_max; simpl; lia.
  - exists 0, (-32768). simpl. repeat split; auto. lia.
  - assert (E : norm_divisor Int16 [0; -32768] = Ok 0) by reflexivity.
    rewrite E in Hd. injection Hd as <-. apply Hnz. reflexivity.
Qed.

End DatasetProps.

(* ===================================================================== *)
(** ** Properties of the training driver *)
(* ===================================================================== *)

Module TrainProps.
Import Py Train Vocabulary.

(** *** The order of the losses *)

Lemma Qltb_lt (p q : Q) : Qltb p q = true <-> (p < q)%Q.
Proof.
  unfold Qltb. rewrite negb_true_iff. split.
  - intros H. apply Qnot_le_lt. intros Hle.
    apply Qle_bool_iff in Hle. congruence.
  - intros H. destruct (Qle_bool q p) eqn:E; [|reflexivity].
    apply Qle_bool_iff in E. now apply Qlt_not_le in H.
Qed.

Lemma Qltb_ge (p q : Q) : Qltb p q = false <-> (q <= p)%Q.
Proof.
  unfold Qltb. rewrite negb_false_iff. apply Qle_bool_iff.
Qed.

Lemma flt_irrefl (a : float) : flt a a = false.
Proof.
  destruct a; simpl; try reflexivity. apply Qltb_ge. apply Qle_refl.
Qed.

Lemma flt_trans (a b c : float) :
  flt a b = true -> flt b c = true -> flt a c = true.
Proof.
  destruct a as [p| | |], b as [q| | |], c as [r| | |]; simpl;
    intros Hab Hbc; try discriminate; try reflexivity.
  apply Qltb_lt in Hab, Hbc. apply Qltb_lt. exact (Qlt_trans _ _ _ Hab Hbc).
Qed.

(** [a < b] and [b <= c] give [a < c], for a [c] that is a number. *)
Lemma flt_lt_le (a b c : float) :
  below_inf c -> flt a b = true -> flt c b = false -> flt a c = true.
Proof.
  unfold below_inf.
  destruct a as [p| | |], b as [q| | |], c as [r| | |]; simpl;
    intros Hc Hab Hcb; try discriminate; try reflexivity.
  apply Qltb_lt in Hab. apply Qltb_ge in Hcb. apply Qltb_lt.
  exact (Qlt_le_trans _ _ _ Hab Hcb).
Qed.

Lemma min_so_far_snoc (l : list float) (x : float) :
  min_so_far (l ++ [x])
  = if flt x (min_so_far l) then x else min_so_far l.
Proof. unfold min_so_far. rewrite fold_left_app. reflexivity. Qed.

(** Among losses below infinity, a loss is below the least of a list exactly
    when it is below every one of the list. *)
Lemma below_min_iff (l : list float) (v : float) :
  Forall below_inf l -> below_inf v ->
  flt v (min_so_far l) = true <->
  forall j, (j < List.length l)%nat -> flt v (nth j l NaN) = true.
Proof.
  intros Hl Hv. induction l as [|x l IH] using rev_ind.
  - split; [intros _ j Hj; simpl in Hj; lia | intros _; exact Hv].
  - apply Forall_app in Hl. destruct Hl as [Hl Hx].
    apply Forall_inv in Hx. specialize (IH Hl).
    rewrite min_so_far_snoc, length_app. simpl.
    destruct (flt x (min_so_far l)) eqn:E; split.
    + intros H j Hj. destruct (Nat.eq_dec j (List.length l)) as [->|Hne].
      * now rewrite nth_middle.
      * rewrite app_nth1 by lia. apply IH; [|lia].
        exact (flt_trans _ _ _ H E).
    + intros H. specialize (H (List.length l) ltac:(lia)).
      now rewrite nth_middle in H.
    + intros H j Hj. destruct (Nat.eq_dec j (List.length l)) as [->|Hne].
      * rewrite nth_middle. exact (flt_lt_le _ _ _ Hx H E).
      * rewrite app_nth1 by lia. apply IH; [assumption|lia].
    + intros H. apply IH. intros j Hj. specialize (H j ltac:(lia)).
      now rewrite app_nth1 in H by lia.
Qed.

(** The least loss so far is infinity on no loss, and otherwise one of the
    losses, with none below it. *)
Lemma min_so_far_least (l : list float) :
  Forall below_inf l ->
  (l = [] /\ min_so_far l = PInf) \/
  (In (min_so_far l) l /\ forall v, In v l -> flt v (min_so_far l) = false).
Proof.
  intros Hl. induction l as [|x l IH] using rev_ind; [left; split; reflexivity|].
  right. apply Forall_app in Hl. destruct Hl as [Hl Hx].
  apply Forall_inv in Hx. specialize (IH Hl).
  rewrite min_so_far_snoc. destruct (flt x (min_so_far l)) eqn:E.
  - split; [apply in_or_app; right; now left|].
    intros v Hv. apply in_app_or in Hv. destruct Hv as [Hv|[<-|[]]].
    + destruct IH as [[-> _]|[_ IH]]; [contradiction|].
      destruct (flt v x) eqn:Evx; [|reflexivity].
      rewrite <- (IH v Hv). symmetry. exact (flt_trans _ _ _ Evx E).
    + apply flt_irrefl.
  - destruct IH as [[-> Hm]|[Hin IH]].
    + rewrite Hm in E. unfold below_inf in Hx. congruence.
    + split; [apply in_or_app; now left|].
      intros v Hv. apply in_app_or in Hv. destruct Hv as [Hv|[<-|[]]]; auto.
Qed.

Section Driver.

Variables state images masks probs : Type.
Variable model : bool -> state -> images -> probs.
Variable optimizer_step :
  (masks -> probs -> float) -> state -> batch images masks -> state.
Variables dice_loss gdlv_loss focal_loss : masks -> probs -> float.

(** *** The Dice metric of the two loops *)

(** One minus a float, as the subtraction of the floats computes it. *)
Lemma fsub_one (x : float) : fsub (float_of_Z 1) x = one_minus x.
Proof.
  destruct x as [q| | |]; try reflexivity.
  unfold fsub, fneg, fadd, float_of_Z, fin, one_minus. f_equal.
  apply Qred_complete. rewrite !Qred_correct. unfold Qminus. reflexivity.
Qed.

(** An accumulator that holds a number, after a number was added. *)
Lemma fadd_fin (d q : Q) : exists d', fadd (Fin d) (Fin q) = Fin d' /\ (d' == d + q)%Q.
Proof.
  exists (Qred (d + q)). split; [reflexivity|apply Qred_correct].
Qed.

Lemma train_dice_sum (loss_fn : masks -> probs -> float)
    (bs : list (batch images masks)) :
  forall (st : state) (train_loss : float) (d0 : Q) (qs : list Q),
    map (batch_dice_loss dice_loss)
        (combine bs (train_probs model optimizer_step loss_fn st bs))
    = map Fin qs ->
    exists d,
      snd (fold_left (train_step model optimizer_step dice_loss loss_fn) bs
                     (st, train_loss, Fin d0)) = Fin d /\
      (d == d0 + fold_right Qplus 0 (map (fun q => 1 - q) qs))%Q.
Proof.
  induction bs as [|b bs IH]; intros st tl d0 qs H.
  - destruct qs; [|discriminate]. exists d0. split; [reflexivity|].
    simpl. ring.
  - destruct qs as [|q qs]; [discriminate|]. simpl in H.
    injection H as Hq Hqs. unfold batch_dice_loss in Hq. simpl in Hq.
    destruct (fadd_fin d0 (Qred (1 - q))) as (d1 & Hadd & Hd1).
    assert (Hstep : train_step model optimizer_step dice_loss loss_fn
                               (st, tl, Fin d0) b
                    = (optimizer_step loss_fn st b,
                       fadd tl (loss_fn (batch_masks b)
                                        (model true st (batch_images b))),
                       Fin d1)).
    { unfold train_step. rewrite fsub_one, Hq. cbn [one_minus].
      rewrite Hadd. reflexivity. }
    cbn [fold_left]. rewrite Hstep.
    destruct (IH _ (fadd tl (loss_fn (batch_masks b)
                                     (model true st (batch_images b))))
                 d1 qs Hqs) as (d & Hd & Hsum).
    exists d. split; [exact Hd|].
    rewrite Hsum, Hd1, Qred_correct. simpl. ring.
Qed.

Lemma val_dice_sum (loss_fn : masks -> probs -> float) (st : state)
    (bs : list (batch images masks)) :
  forall (val_loss : float) (n : nat) (d0 : Q) (qs : list Q),
    map (batch_dice_loss dice_loss) (combine bs (val_probs model st bs))
    = map Fin qs ->
    exists d,
      snd (fst (fold_left (val_step model dice_loss loss_fn st) bs
                          (val_loss, Fin d0, n))) = Fin d /\
      (d == d0 + fold_right Qplus 0 (map (fun q => 1 - q) qs))%Q.
Proof.
  induction bs as [|b bs IH]; intros vl n d0 qs H.
  - destruct qs; [|discriminate]. exists d0. split; [reflexivity|].
    simpl. ring.
  - destruct qs as [|q qs]; [discriminate|]. simpl in H.
    injection H as Hq Hqs. unfold batch_dice_loss in Hq. simpl in Hq.
    destruct (fadd_fin d0 (Qred (1 - q))) as (d1 & Hadd & Hd1).
    assert (Hstep : val_step model dice_loss loss_fn st (vl, Fin d0, n) b
                    = (fadd vl (loss_fn (batch_masks b)
                                        (model false st (batch_images b))),
                       Fin d1, (n + batch_len b)%nat)).
    { unfold val_step. rewrite fsub_one, Hq. cbn [one_minus].
      rewrite Hadd. reflexivity. }
    cbn [fold_left]. rewrite Hstep.
    destruct (IH (fadd vl (loss_fn (batch_masks b)
                                   (model false st (batch_images b))))
                 (n + batch_len b)%nat d1 qs Hqs) as (d & Hd & Hsum).
    exists d. split; [exact Hd|].
    rewrite Hsum, Hd1, Qred_correct. simpl. ring.
Qed.

(** C7.  In the training loop and in the validation loop, what is added to
    the Dice accumulator for a batch is one minus [dice_loss(masks, probs)]
    of that batch, whatever loss [--loss] selects for the optimisation: for
    a Dice loss that is the number [q] the increment is the number [1 - q]
    (and [-inf], [+inf], NaN for a loss [+inf], [-inf], NaN).  Over the
    batches of an epoch with the Dice losses [q1 .. qn], the accumulator
    that starts at [0] ends at [(1 - q1) + ... + (1 - qn)]. *)
Theorem dice_metric_is_one_minus_dice_loss (a : args) :
  (forall st train_loss train_dice b,
     snd (train_step model optimizer_step dice_loss
                     (select_loss dice_loss gdlv_loss focal_loss a)
                     (st, train_loss, train_dice) b)
     = fadd train_dice
            (one_minus (dice_loss (batch_masks b)
                                  (model true st (batch_images b))))) /\
  (forall st val_loss val_dice n b,
     snd (fst (val_step model dice_loss
                        (select_loss dice_loss gdlv_loss focal_loss a) st
                        (val_loss, val_dice, n) b))
     = fadd val_dice
            (one_minus (dice_loss (batch_masks b)
                                  (model false st (batch_images b))))) /\
  (forall st bs qs train_loss,
     map (batch_dice_loss dice_loss)
         (combine bs
            (train_probs model optimizer_step
                         (select_loss dice_loss gdlv_loss focal_loss a) st bs))
     = map Fin qs ->
     exists d,
       snd (fold_left
              (train_step model optimizer_step dice_loss
                          (select_loss dice_loss gdlv_loss focal_loss a))
              bs (st, train_loss, float_of_Z 0)) = Fin d /\
       (d == fold_right Qplus 0 (map (fun q => 1 - q) qs))%Q) /\
  (forall st bs qs val_loss n,
     map (batch_dice_loss dice_loss) (combine bs (val_probs model st bs))
     = map Fin qs ->
     exists d,
       snd (fst (fold_left
                   (val_step model dice_loss
                             (select_loss dice_loss gdlv_loss focal_loss a) st)
                   bs (val_loss, float_of_Z 0, n))) = Fin d /\
       (d == fold_right Qplus 0 (map (fun q => 1 - q) qs))%Q).
Proof.
  split; [|split; [|split]].
  - intros st tl td b. unfold train_step. now rewrite fsub_one.
  - intros st vl vd n b. unfold val_step. now rewrite fsub_one.
  - intros st bs qs tl H.
    destruct (train_dice_sum _ bs st tl 0%Q qs H) as (d & Hd & Hsum).
    exists d. split; [exact Hd|]. rewrite Hsum. ring.
  - intros st bs qs vl n H.
    destruct (val_dice_sum (select_loss dice_loss gdlv_loss focal_loss a)
                           st bs vl n 0%Q qs H) as (d & Hd & Hsum).
    exists d. split; [exact Hd|]. rewrite Hsum. ring.
Qed.

(** *** Checkpoints *)

Lemma tracks_minimum_weights (r : run state) (st : state) (epoch : nat) :
  tracks_minimum r epoch ->
  tracks_minimum
    {| weights := st; min_loss := min_loss r;
       train_losses := train_losses r; val_losses := val_losses r;
       train_dices := train_dices r; val_dices := val_dices r;
       checkpoints := checkpoints r |} epoch.
Proof. intros H. exact H. Qed.

(** An epoch whose validation loss is below [min_loss] writes a checkpoint
    and lowers [min_loss]. *)
Lemma tracks_minimum_saved (r : run state) (st : state) (m : metrics)
    (epoch : nat) :
  tracks_minimum r epoch ->
  flt (m_val_loss m) (min_loss r) = true ->
  tracks_minimum (save_checkpoint (record_epoch r st m) epoch m) (S epoch).
Proof.
  intros (Hlen & Hmin & Hck & Hsv) Hlt. subst epoch.
  unfold tracks_minimum, saved. simpl.
  split; [rewrite length_app; simpl; lia|]. split.
  { rewrite min_so_far_snoc, <- Hmin, Hlt. reflexivity. }
  split.
  { intros c Hc. apply in_app_or in Hc. destruct Hc as [Hc|[<-|[]]].
    - specialize (Hck c Hc). lia.
    - simpl. lia. }
  intros k Hk. destruct (Nat.eq_dec k (List.length (val_losses r))) as [->|Hne].
  - rewrite nth_middle.
    rewrite firstn_app, Nat.sub_diag, firstn_all. simpl. rewrite app_nil_r.
    rewrite <- Hmin. split; [intros _; exact Hlt|]. intros _.
    eexists. split; [apply in_or_app; right; left; reflexivity|]. reflexivity.
  - assert (Hk' : (k < List.length (val_losses r))%nat) by lia.
    rewrite app_nth1 by lia.
    rewrite firstn_app. replace (k - List.length (val_losses r))%nat with 0%nat by lia.
    simpl. rewrite app_nil_r. rewrite <- (Hsv k Hk'). unfold saved. split.
    + intros (c & Hc & He). apply in_app_or in Hc. destruct Hc as [Hc|[<-|[]]].
      * exists c. split; assumption.
      * simpl in He. lia.
    + intros (c & Hc & He). exists c. split; [apply in_or_app; now left|assumption].
Qed.

(** An epoch whose validation loss is not below [min_loss] writes nothing. *)
Lemma tracks_minimum_skipped (r : run state) (st : state) (m : metrics)
    (epoch : nat) :
  tracks_minimum r epoch ->
  flt (m_val_loss m) (min_loss r) = false ->
  tracks_minimum (record_epoch r st m) (S epoch).
Proof.
  intros (Hlen & Hmin & Hck & Hsv) Hlt. subst epoch.
  unfold tracks_minimum, saved. simpl.
  split; [rewrite length_app; simpl; lia|]. split.
  { rewrite min_so_far_snoc, <- Hmin, Hlt. reflexivity. }
  split.
  { intros c Hc. specialize (Hck c Hc). lia. }
  intros k Hk. destruct (Nat.eq_dec k (List.length (val_losses r))) as [->|Hne].
  - rewrite nth_middle.
    rewrite firstn_app, Nat.sub_diag, firstn_all. simpl. rewrite app_nil_r.
    rewrite <- Hmin, Hlt. split; [|discriminate].
    intros (c & Hc & He). specialize (Hck c Hc). lia.
  - assert (Hk' : (k < List.length (val_losses r))%nat) by lia.
    rewrite app_nth1 by lia.
    rewrite firstn_app. replace (k - List.length (val_losses r))%nat with 0%nat by lia.
    simpl. rewrite app_nil_r. exact (Hsv k Hk').
Qed.

Lemma tracks_minimum_length (r : run state) (epoch : nat) :
  tracks_minimum r epoch -> tracks_minimum r (List.length (val_losses r)).
Proof. intros H. destruct H as (Hlen & H). rewrite Hlen. exact (conj Hlen H). Qed.

(** The epoch loop keeps the state on the least validation loss, however it
    ends. *)
Lemma epochs_track_minimum (loss_fn : masks -> probs -> float)
    (train_dl : nat -> list (batch images masks))
    (validation_dl : list (batch images masks)) (count : nat) :
  forall (epoch : nat) (r0 r : run state) (o : result unit),
    tracks_minimum r0 epoch ->
    epochs model optimizer_step dice_loss loss_fn train_dl validation_dl
           epoch count r0 = (r, o) ->
    tracks_minimum r (List.length (val_losses r)).
Proof.
  induction count as [|c IH]; intros epoch r0 r o H0 E; simpl in E.
  - injection E as <- _. exact (tracks_minimum_length _ _ H0).
  - destruct (fold_left (train_step model optimizer_step dice_loss loss_fn) _ _)
      as [[st tl] td].
    destruct (fold_left (val_step model dice_loss loss_fn st) _ _)
      as [[vl vd] np].
    destruct (epoch_metrics tl vl td vd _ _) as [m|e].
    + destruct (flt (m_val_loss m) (min_loss r0)) eqn:Elt.
      * pose proof (tracks_minimum_saved r0 st m epoch H0 Elt) as H2.
        destruct (np <? 50)%nat.
        -- injection E as <- _. exact (tracks_minimum_length _ _ H2).
        -- exact (IH _ _ _ _ H2 E).
      * exact (IH _ _ _ _ (tracks_minimum_skipped r0 st m epoch H0 Elt) E).
    + injection E as <- _.
      exact (tracks_minimum_length _ _ (tracks_minimum_weights r0 st epoch H0)).
Qed.

(** C4, as the code has it.  Whatever the run, [min_loss] is the least
    validation loss of the completed epochs in the order [<] of the floats
    (infinity before the first), and the checkpoint of an epoch is written
    exactly when its validation loss is below that least loss.  When every
    validation loss is a number below infinity (no NaN, no [+inf]), this is
    the same as the loss being strictly lower than that of every earlier
    epoch, and [min_loss] is the minimum of the losses so far. *)
Theorem checkpoint_on_new_minimum (a : args) (st0 : state)
    (train_dl : nat -> list (batch images masks))
    (validation_dl : list (batch images masks))
    (r : run state) (o : result unit) :
  train model optimizer_step dice_loss gdlv_loss focal_loss a st0
        train_dl validation_dl = (r, o) ->
  (min_loss r = min_so_far (val_losses r) /\
   forall k, (k < List.length (val_losses r))%nat ->
     (saved r k <->
      flt (nth k (val_losses r) NaN) (min_so_far (firstn k (val_losses r)))
      = true)) /\
  (Forall below_inf (val_losses r) ->
   checkpoint_iff_lowest r /\
   ((val_losses r = [] /\ min_loss r = PInf) \/
    (In (min_loss r) (val_losses r) /\
     forall v, In v (val_losses r) -> flt v (min_loss r) = false))).
Proof.
  intros E. unfold train in E.
  apply epochs_track_minimum with (epoch := 0%nat) in E.
  2:{ unfold tracks_minimum, saved. simpl.
      split; [reflexivity|]. split; [reflexivity|].
      split; [intros c []|]. intros k Hk. lia. }
  destruct E as (_ & Hmin & _ & Hsv).
  split; [split; assumption|].
  intros Hfin. split.
  - intros k Hk. rewrite (Hsv k Hk).
    assert (Hk' : below_inf (nth k (val_losses r) NaN)).
    { rewrite Forall_forall in Hfin. apply Hfin, nth_In, Hk. }
    assert (Hpre : Forall below_inf (firstn k (val_losses r))).
    { rewrite Forall_forall in *. intros v Hv. apply Hfin.
      rewrite <- (firstn_skipn k (val_losses r)). apply in_or_app. now left. }
    rewrite (below_min_iff _ _ Hpre Hk').
    rewrite length_firstn, Nat.min_l by lia.
    split; intros H j Hj; specialize (H j Hj);
      rewrite nth_firstn in *;
      destruct (j <? k)%nat eqn:Ej; try assumption;
      apply Nat.ltb_ge in Ej; lia.
  - rewrite Hmin. apply min_so_far_least, Hfin.
Qed.

End Driver.

Lemma dice_metric_is_one_minus_dice_loss_witness :
  let a := {| num_epochs := 1; loss := "gdlv" |} in
  let loss_fn := select_loss Examples.quarter_dice Examples.other_loss
                             Examples.other_loss a in
  snd (train_step Examples.unit_model Examples.unit_step
                  Examples.quarter_dice loss_fn
                  (0%nat, float_of_Z 0, float_of_Z 0) Examples.unit_batch)
  = Fin (3 # 4) /\
  exists d,
    snd (fold_left (train_step Examples.unit_model Examples.unit_step
                               Examples.quarter_dice loss_fn)
                   [Examples.unit_batch; Examples.unit_batch]
                   (0%nat, float_of_Z 0, float_of_Z 0)) = Fin d /\
    (d == 3 # 2)%Q.
Proof.
  intros a loss_fn.
  destruct (dice_metric_is_one_minus_dice_loss nat unit unit unit
              Examples.unit_model Examples.unit_step
              Examples.quarter_dice Examples.other_loss Examples.other_loss a)
    as (Hstep & _ & Hsum & _).
  split.
  - fold loss_fn in Hstep. rewrite Hstep. reflexivity.
  - destruct (Hsum 0%nat [Examples.unit_batch; Examples.unit_batch]
                   [1 # 4; 1 # 4]%Q (float_of_Z 0) eq_refl)
      as (d & Hd & Hq).
    exists d. split; [exact Hd|]. rewrite Hq. reflexivity.
Defined.

Lemma checkpoint_on_new_minimum_witness :
  let r := fst (Examples.sound_train 3) in
  Forall below_inf (val_losses r) /\
  checkpoint_iff_lowest r /\
  min_loss r = min_so_far (val_losses r).
Proof.
  intros r.
  assert (Hfin : Forall below_inf (val_losses r)).
  { repeat constructor. }
  pose proof (checkpoint_on_new_minimum nat unit unit float
                Examples.sound_model Examples.toy_step
                Examples.toy_loss Examples.toy_loss Examples.toy_loss
                {| num_epochs := 3; loss := "gdlv" |} 0%nat
                (fun _ => [Examples.toy_batch]) [Examples.toy_batch]
                r (snd (Examples.sound_train 3)) eq_refl) as H.
  destruct H as [[Hmin _] H]. destruct (H Hfin) as [Hck _].
  split; [exact Hfin|]. split; [exact Hck | exact Hmin].
Defined.

(** C4, as it is worded, fails.  A run of two epochs whose validation losses
    are NaN and then 1/2 writes no checkpoint for the first epoch, although
    no earlier epoch exists, and writes one for the second, although 1/2 is
    not lower than NaN: [min_loss] was still infinity. *)
Lemma checkpoint_iff_lowest_fails :
  val_losses (fst (Examples.toy_train 2)) = [NaN; Fin (1 # 2)] /\
  map ckpt_epoch (checkpoints (fst (Examples.toy_train 2))) = [2%nat] /\
  ~ checkpoint_iff_lowest (fst (Examples.toy_train 2)).
Proof.
  split; [reflexivity|]. split; [reflexivity|].
  intros H.
  assert (Hk : (1 < List.length (val_losses (fst (Examples.toy_train 2))))%nat)
    by (simpl; lia).
  assert (Hs : saved (fst (Examples.toy_train 2)) 1).
  { eexists. split; [left; reflexivity|reflexivity]. }
  pose proof (proj1 (H 1%nat Hk) Hs 0%nat ltac:(lia)) as Hlt.
  discriminate.
Qed.

End TrainProps.

(* ===================================================================== *)
(** ** Properties of the runtime profiler *)
(* ===================================================================== *)

Module RuntimeProps.
Import Py Runtime Vocabulary.

Open Scope Q_scope.

Lemma fold_plus_acc (l : list Q) (a : Q) :
  fold_left Qplus l a == a + fold_right Qplus 0 l.
Proof.
  revert a. induction l as [|x l IH]; intros a; simpl.
  - ring.
  - rewrite IH. ring.
Qed.

Lemma qsum_fold_right (l : list Q) : qsum l == fold_right Qplus 0 l.
Proof. unfold qsum. rewrite fold_plus_acc. ring. Qed.

Lemma fold_right_plus_ext (l l' : list Q) :
  Forall2 Qeq l l' -> fold_right Qplus 0 l == fold_right Qplus 0 l'.
Proof.
  induction 1 as [|x y l l' Hxy _ IH]; simpl.
  - reflexivity.
  - rewrite Hxy, IH. reflexivity.
Qed.

Lemma mean_ext (l l' : list Q) : Forall2 Qeq l l' -> mean l == mean l'.
Proof.
  intros H. unfold mean. rewrite (Forall2_length H).
  rewrite (fold_right_plus_ext _ _ H). reflexivity.
Qed.

Lemma Forall2_map_pointwise {A : Type} (f g : A -> Q) (l : list A) :
  (forall x, f x == g x) -> Forall2 Qeq (map f l) (map g l).
Proof. intros H. induction l; simpl; constructor; auto. Qed.

(** [sum(l) / len(l)] is the mean, and is there as soon as the list is not
    empty. *)
Lemma average_is_mean (l : list Q) (q : Q) : average l = Ok q -> q == mean l.
Proof.
  unfold average. destruct (Nat.eqb (List.length l) 0); [discriminate|].
  intros [= <-]. unfold mean. rewrite qsum_fold_right. reflexivity.
Qed.

Lemma average_total (l : list Q) :
  l <> [] -> exists q, average l = Ok q.
Proof.
  intros H. unfold average. destruct l as [|x l]; [congruence|].
  simpl. eexists. reflexivity.
Qed.

(** The lists the two loops fill. *)
Lemma fold_slice_step (cs : list slice_clock) :
  forall pre inf post : list Q,
    fold_left slice_step cs (pre, inf, post)
    = (pre ++ map (fun c => data_preprocessing_time_slice_t1 c
                            - data_preprocessing_time_slice_t0 c) cs,
       inf ++ map (fun c => inference_time_slice_t1 c
                            - inference_time_slice_t0 c) cs,
       post ++ map (fun c => data_postprocessing_time_slice_t1 c
                             - data_postprocessing_time_slice_t0 c) cs).
Proof.
  induction cs as [|c cs IH]; intros pre inf post; simpl.
  - now rewrite !app_nil_r.
  - rewrite IH, <- !app_assoc. reflexivity.
Qed.

Lemma stage_sums_totals (p : patient_clock) :
  fst (fst (stage_sums p)) == preprocess_total p /\
  snd (fst (stage_sums p)) == infer_total p /\
  snd (stage_sums p) == postprocess_total p.
Proof.
  unfold stage_sums. rewrite fold_slice_step. simpl.
  unfold preprocess_total, infer_total, postprocess_total.
  repeat split; apply qsum_fold_right.
Qed.

Lemma patient_step_appends (t : timings) (p : patient_clock) :
  patient_step t p
  = {| loading_times := loading_times t ++ [load_total p];
       data_preprocessing_times :=
         data_preprocessing_times t ++ [fst (fst (stage_sums p))];
       inference_times := inference_times t ++ [snd (fst (stage_sums p))];
       data_postprocessing_times :=
         data_postprocessing_times t ++ [snd (stage_sums p)];
       total_times := total_times t ++ [elapsed_total p] |}.
Proof.
  unfold patient_step, stage_sums.
  destruct (fold_left slice_step (slice_clocks p) ([], [], []))
    as [[pre inf] post].
  reflexivity.
Qed.

Lemma fold_patient_step (clocks : list patient_clock) :
  forall t : timings,
    fold_left patient_step clocks t
    = {| loading_times := loading_times t ++ map load_total clocks;
         data_preprocessing_times :=
           data_preprocessing_times t
           ++ map (fun p => fst (fst (stage_sums p))) clocks;
         inference_times :=
           inference_times t ++ map (fun p => snd (fst (stage_sums p))) clocks;
         data_postprocessing_times :=
           data_postprocessing_times t
           ++ map (fun p => snd (stage_sums p)) clocks;
         total_times := total_times t ++ map elapsed_total clocks |}.
Proof.
  induction clocks as [|p clocks IH]; intros t; simpl.
  - rewrite !app_nil_r. destruct t; reflexivity.
  - rewrite IH, patient_step_appends. simpl.
    rewrite <- !app_assoc. reflexivity.
Qed.

(** The fields of a report are the five averages. *)
Lemma summarise_fields (t : timings) (r : report) :
  summarise t = Ok r ->
  average (loading_times t) = Ok (loading_time r) /\
  average (data_preprocessing_times t) = Ok (data_preprocessing_time r) /\
  average (inference_times t) = Ok (inference_time r) /\
  average (data_postprocessing_times t) = Ok (data_postprocessing_time r) /\
  average (total_times t) = Ok (total_time r).
Proof.
  unfold summarise.
  destruct (average (loading_times t)); simpl; [|discriminate].
  destruct (average (data_preprocessing_times t)); simpl; [|discriminate].
  destruct (average (inference_times t)); simpl; [|discriminate].
  destruct (average (data_postprocessing_times t)); simpl; [|discriminate].
  destruct (average (total_times t)) as [tt|]; simpl; [|discriminate].
  destruct (percent _ tt); simpl; [|discriminate].
  destruct (percent _ tt); simpl; [|discriminate].
  destruct (percent _ tt); simpl; [|discriminate].
  destruct (percent _ tt); simpl; [|discriminate].
  intros [= <-]. simpl. repeat split; reflexivity.
Qed.

Lemma percent_total (part total : Q) :
  ~ total == 0 -> exists q, percent part total = Ok q.
Proof.
  intros H. unfold percent. destruct (Qeq_bool total 0) eqn:E.
  - apply Qeq_bool_iff in E. contradiction.
  - eexists. reflexivity.
Qed.

(** C5.  A profiled run over a non-empty list of patients whose mean total
    time is not zero returns a report, the same for the U-Net and for the
    Segformer variant; and in every report each stage time is the arithmetic
    mean over the patients of the patient's stage total: one measurement for
    the loading, the sum over the slices of the volume for the
    preprocessing, the inference and the postprocessing. *)
Theorem stage_times_are_means (clocks : list patient_clock) :
  (clocks <> [] -> ~ mean (map elapsed_total clocks) == 0 ->
   exists r, perform_runtime_analysis_unet clocks = Ok r) /\
  (forall r, perform_runtime_analysis_unet clocks = Ok r ->
     perform_runtime_analysis_segformer clocks = Ok r /\
     loading_time r == mean (map load_total clocks) /\
     data_preprocessing_time r == mean (map preprocess_total clocks) /\
     inference_time r == mean (map infer_total clocks) /\
     data_postprocessing_time r == mean (map postprocess_total clocks) /\
     total_time r == mean (map elapsed_total clocks)).
Proof.
  unfold perform_runtime_analysis_unet, perform_runtime_analysis_segformer.
  rewrite fold_patient_step. simpl. split.
  - intros Hne Htot. unfold summarise. simpl.
    assert (Hm : forall (f : patient_clock -> Q), map f clocks <> []).
    { intros f. destruct clocks; [congruence|discriminate]. }
    destruct (average_total _ (Hm load_total)) as [lt ->].
    destruct (average_total _ (Hm (fun p => fst (fst (stage_sums p))))) as [pt ->].
    destruct (average_total _ (Hm (fun p => snd (fst (stage_sums p))))) as [it ->].
    destruct (average_total _ (Hm (fun p => snd (stage_sums p)))) as [ot ->].
    destruct (average_total _ (Hm elapsed_total)) as [tt Ett]. rewrite Ett.
    simpl. apply average_is_mean in Ett.
    assert (Hnz : ~ tt == 0) by (rewrite Ett; exact Htot).
    destruct (percent_total lt tt Hnz) as [pl ->].
    destruct (percent_total pt tt Hnz) as [pp ->].
    destruct (percent_total it tt Hnz) as [pi ->].
    destruct (percent_total ot tt Hnz) as [po ->].
    simpl. eexists. reflexivity.
  - intros r Hr. split; [exact Hr|].
    apply summarise_fields in Hr. simpl in Hr.
    destruct Hr as (Hl & Hp & Hi & Ho & Ht).
    apply average_is_mean in Hl, Hp, Hi, Ho, Ht.
    split; [exact Hl|]. split.
    { rewrite Hp. apply mean_ext, Forall2_map_pointwise.
      intros p. apply stage_sums_totals. }
    split.
    { rewrite Hi. apply mean_ext, Forall2_map_pointwise.
      intros p. apply stage_sums_totals. }
    split; [|exact Ht].
    rewrite Ho. apply mean_ext, Forall2_map_pointwise.
    intros p. apply stage_sums_totals.
Qed.

Lemma stage_times_are_means_witness :
  Examples.patient_clocks <> [] /\
  ~ mean (map elapsed_total Examples.patient_clocks) == 0 /\
  exists r,
    perform_runtime_analysis_unet Examples.patient_clocks = Ok r /\
    inference_time r == mean (map infer_total Examples.patient_clocks).
Proof.
  assert (Hne : Examples.patient_clocks <> []) by discriminate.
  assert (Hnz : ~ mean (map elapsed_total Examples.patient_clocks) == 0)
    by (vm_compute; discriminate).
  split; [exact Hne|]. split; [exact Hnz|].
  destruct (stage_times_are_means Examples.patient_clocks) as [Hex Hall].
  destruct (Hex Hne Hnz) as [r Hr]. exists r. split; [exact Hr|].
  apply (Hall r Hr).
Defined.

Close Scope Q_scope.

End RuntimeProps.

(* ===================================================================== *)
(** ** Properties of the parameter counter and of the two main blocks *)
(* ===================================================================== *)

Module CounterProps.
Import Py ModelParameters Vocabulary.

Lemma count_cons (p : parameter) (model : module) :
  num_model_parameters (p :: model)
  = (if requires_grad p then numel p else 0) + num_model_parameters model.
Proof.
  unfold num_model_parameters. simpl.
  destruct (requires_grad p); simpl; [apply DatasetProps.sum_cons | reflexivity].
Qed.

Lemma count_app (m1 m2 : module) :
  num_model_parameters (m1 ++ m2)
  = num_model_parameters m1 + num_model_parameters m2.
Proof.
  induction m1 as [|p m1 IH]; simpl.
  - reflexivity.
  - rewrite !count_cons, IH. lia.
Qed.

Section Main.

Variables get_model_unet2d get_model_segformer : string -> result module.

(** C6.  The number printed for a model is the sum of the element counts of
    its parameters that require a gradient; a parameter that does not
    contributes nothing, wherever it stands; and the line an iteration of the
    main block prints carries that number for the model bound to [model]
    after the dispatch. *)
Theorem counts_trainable_weights (model : module) :
  num_model_parameters model = trainable_weights model /\
  (forall m1 p m2, model = m1 ++ p :: m2 -> requires_grad p = false ->
     num_model_parameters model = num_model_parameters (m1 ++ m2)) /\
  (forall var model_name ev,
     dispatch get_model_unet2d get_model_segformer var model_name
     = (ev, Ok (Some model)) ->
     iteration get_model_unet2d get_model_segformer var model_name
     = (ev ++ [Printed model_name (trainable_weights model)], Ok (Some model))).
Proof.
  assert (Hcount : forall m, num_model_parameters m = trainable_weights m).
  { induction m as [|p m IH]; [reflexivity|].
    rewrite count_cons. simpl. destruct (requires_grad p); lia. }
  split; [apply Hcount|]. split.
  - intros m1 p m2 -> Hp. rewrite !count_app, count_cons, Hp. lia.
  - intros var model_name ev Hd. unfold iteration. rewrite Hd, Hcount.
    reflexivity.
Qed.

End Main.

Lemma counts_trainable_weights_witness :
  num_model_parameters Examples.small_model = 15 /\
  trainable_weights Examples.small_model = 15 /\
  iteration (fun _ => Ok Examples.small_model) (fun _ => Raise FileNotFoundError)
            None "unet2d_results_dice_concat"
  = ([Loaded_unet2d "unet2d_results_dice_concat"; Discarded ValueError;
      Printed "unet2d_results_dice_concat" 15],
     Ok (Some Examples.small_model)).
Proof.
  destruct (counts_trainable_weights
              (fun _ => Ok Examples.small_model)
              (fun _ => Raise FileNotFoundError) Examples.small_model)
    as (Hc & _ & Hit).
  split; [reflexivity|]. split; [rewrite <- Hc; reflexivity|].
  exact (Hit None "unet2d_results_dice_concat"%string _ eq_refl).
Defined.

End CounterProps.

Module DispatchProps.
Import Py.

Section Callees.

Variables analysis_unet analysis_segformer : string -> nat -> result unit.
Variables get_model_unet2d get_model_segformer
  : string -> result ModelParameters.module.

(** An exception leaves the dispatch of the profiler only out of one of the
    two analyses. *)
Lemma runtime_dispatch_raises (model : string) (n : nat)
    (ev : list Runtime.event) (e : exn) :
  Runtime.dispatch analysis_unet analysis_segformer model n = (ev, Raise e) ->
  (contains "unet2d" model = true /\ analysis_unet model n = Raise e) \/
  (contains "segformer" model = true /\ analysis_segformer model n = Raise e).
Proof.
  unfold Runtime.dispatch.
  destruct (contains "unet2d" model) eqn:Eu.
  - destruct (analysis_unet model n) as [u|e'] eqn:Ea.
    + destruct (contains "segformer" model) eqn:Es; [|discriminate].
      intros [= _ H]. right. split; [reflexivity|assumption].
    + intros [= _ <-]. left. split; reflexivity.
  - destruct (contains "segformer" model) eqn:Es; [|discriminate].
    intros [= _ H]. right. split; [reflexivity|assumption].
Qed.

Lemma runtime_main_loop_raises (model_names : list string) (n : nat) :
  forall (ev : list Runtime.event) (e : exn),
    Runtime.main_loop analysis_unet analysis_segformer model_names n
    = (ev, Raise e) ->
    exists model, In model model_names /\
      (analysis_unet model n = Raise e \/ analysis_segformer model n = Raise e).
Proof.
  induction model_names as [|model rest IH]; intros ev e H; simpl in H.
  - discriminate.
  - destruct (Runtime.dispatch analysis_unet analysis_segformer model n)
      as [ev1 [u|e1]] eqn:Ed.
    + destruct (Runtime.main_loop analysis_unet analysis_segformer rest n)
        as [ev2 r2] eqn:Er.
      injection H as _ ->.
      destruct (IH _ _ eq_refl) as (m & Hin & Hm).
      exists m. split; [now right|assumption].
    + injection H as _ <-. exists model. split; [now left|].
      destruct (runtime_dispatch_raises _ _ _ _ Ed) as [[_ H]|[_ H]]; auto.
Qed.

(** An exception leaves the dispatch of the parameter counter only out of one
    of the two loaders. *)
Lemma counter_dispatch_raises (var : option ModelParameters.module)
    (model_name : string) (ev : list ModelParameters.event) (e : exn) :
  ModelParameters.dispatch get_model_unet2d get_model_segformer var model_name
  = (ev, Raise e) ->
  (contains "unet2d" model_name = true /\ get_model_unet2d model_name = Raise e)
  \/
  (contains "segformer" model_name = true
   /\ get_model_segformer model_name = Raise e).
Proof.
  unfold ModelParameters.dispatch.
  destruct (contains "unet2d" model_name) eqn:Eu.
  - destruct (get_model_unet2d model_name) as [m|e'] eqn:Ea; simpl.
    + destruct (contains "segformer" model_name) eqn:Es; [|discriminate].
      destruct (get_model_segformer model_name) as [m'|e''] eqn:Eb; simpl;
        [discriminate|].
      intros [= _ <-]. right. split; reflexivity.
    + intros [= _ <-]. left. split; reflexivity.
  - destruct (contains "segformer" model_name) eqn:Es; [|discriminate].
    destruct (get_model_segformer model_name) as [m'|e''] eqn:Eb; simpl;
      [discriminate|].
    intros [= _ <-]. right. split; reflexivity.
Qed.

Lemma counter_main_loop_raises (model_names : list string) :
  forall (var : option ModelParameters.module)
         (ev : list ModelParameters.event) (e : exn),
    ModelParameters.main_loop get_model_unet2d get_model_segformer
                              var model_names = (ev, Raise e) ->
    e = NameError \/
    exists model_name, In model_name model_names /\
      (get_model_unet2d model_name = Raise e
       \/ get_model_segformer model_name = Raise e).
Proof.
  induction model_names as [|model_name rest IH]; intros var ev e H; simpl in H.
  - discriminate.
  - unfold ModelParameters.iteration in H.
    destruct (ModelParameters.dispatch get_model_unet2d get_model_segformer
                                       var model_name)
      as [ev1 [[m|]|e1]] eqn:Ed.
    + destruct (ModelParameters.main_loop get_model_unet2d get_model_segformer
                                          (Some m) rest) as [ev2 r2] eqn:Er.
      injection H as _ ->.
      destruct (IH _ _ _ Er) as [->|(x & Hin & Hx)]; [now left|].
      right. exists x. split; [now right|assumption].
    + injection H as _ <-. now left.
    + injection H as _ <-. right. exists model_name. split; [now left|].
      destruct (counter_dispatch_raises _ _ _ _ Ed) as [[_ H]|[_ H]]; auto.
Qed.

(** C9.  The dispatch on the model name raises no [ValueError] of its own, in
    either script: the exception object of the [else] branch is built and
    dropped.  A name with neither ["unet2d"] nor ["segformer"] in it is passed
    over, nothing is called or loaded for it; a name with ["unet2d"] but not
    ["segformer"] has its model analysed or loaded and then reaches the same
    [else] branch.  An exception leaves a main block only out of a callee
    (or, in the parameter counter, as the [NameError] of the unbound
    [model]). *)
Theorem dispatch_never_raises_value_error (model_name : string) :
  (contains "unet2d" model_name = false ->
   contains "segformer" model_name = false ->
   (forall n,
      Runtime.dispatch analysis_unet analysis_segformer model_name n
      = ([Runtime.Discarded ValueError], Ok tt)) /\
   (forall var,
      ModelParameters.dispatch get_model_unet2d get_model_segformer
                               var model_name
      = ([ModelParameters.Discarded ValueError], Ok var))) /\
  (contains "unet2d" model_name = true ->
   contains "segformer" model_name = false ->
   (forall n, analysis_unet model_name n = Ok tt ->
      Runtime.dispatch analysis_unet analysis_segformer model_name n
      = ([Runtime.Called_unet model_name; Runtime.Discarded ValueError],
         Ok tt)) /\
   (forall var m, get_model_unet2d model_name = Ok m ->
      ModelParameters.dispatch get_model_unet2d get_model_segformer
                               var model_name
      = ([ModelParameters.Loaded_unet2d model_name;
          ModelParameters.Discarded ValueError], Ok (Some m)))) /\
  (forall model_names ev e,
     Runtime.main analysis_unet analysis_segformer model_names = (ev, Raise e) ->
     exists model, In model model_names /\
       (analysis_unet model 2 = Raise e \/ analysis_segformer model 2 = Raise e))
  /\
  (forall model_names ev e,
     ModelParameters.main get_model_unet2d get_model_segformer model_names
     = (ev, Raise e) ->
     e = NameError \/
     exists model, In model model_names /\
       (get_model_unet2d model = Raise e \/ get_model_segformer model = Raise e)).
Proof.
  split; [|split; [|split]].
  - intros Hu Hs. split.
    + intros n. unfold Runtime.dispatch. rewrite Hu, Hs. reflexivity.
    + intros var. unfold ModelParameters.dispatch. rewrite Hu, Hs. reflexivity.
  - intros Hu Hs. split.
    + intros n Ha. unfold Runtime.dispatch. rewrite Hu, Hs, Ha. reflexivity.
    + intros var m Hm. unfold ModelParameters.dispatch.
      rewrite Hu, Hs, Hm. reflexivity.
  - intros model_names ev e. apply runtime_main_loop_raises.
  - intros model_names ev e. apply counter_main_loop_raises.
Qed.

End Callees.

Lemma dispatch_never_raises_value_error_witness :
  Runtime.dispatch (fun _ _ => Ok tt) (fun _ _ => Ok tt) "resnet50" 2
  = ([Runtime.Discarded ValueError], Ok tt) /\
  Runtime.dispatch (fun _ _ => Ok tt) (fun _ _ => Ok tt)
                   "unet2d_results_dice_concat" 2
  = ([Runtime.Called_unet "unet2d_results_dice_concat";
      Runtime.Discarded ValueError], Ok tt).
Proof.
  split.
  - apply (dispatch_never_raises_value_error
             (fun _ _ => Ok tt) (fun _ _ => Ok tt)
             (fun _ => Ok []) (fun _ => Ok []) "resnet50");
      reflexivity.
  - apply (dispatch_never_raises_value_error
             (fun _ _ => Ok tt) (fun _ _ => Ok tt)
             (fun _ => Ok []) (fun _ => Ok []) "unet2d_results_dice_concat");
      reflexivity.
Defined.

End DispatchProps.

(* ===================================================================== *)
(** ** Further properties of the dataset indexer *)
(* ===================================================================== *)

Module DatasetExtras.
Import Py Asoca Vocabulary DatasetProps.

(** *** The range of the lookup *)

Lemma first_row_raises (rows : list nat) (e : exn) :
  first_row rows = Raise e -> e = IndexError.
Proof. destruct rows; simpl; congruence. Qed.

(** X1.  On a constructed dataset, a non-negative flat index is resolved
    exactly when it is below [len]; at and beyond [len] the lookup raises
    [IndexError], and nothing else. *)
Theorem locate_range (ds : ASOCADataset) (index : Z) :
  constructed ds -> 0 <= index ->
  (index < len ds -> exists p s, locate ds index = Ok (p, s)) /\
  (len ds <= index -> locate ds index = Raise IndexError).
Proof.
  intros Hc Hi. split.
  - intros Hlt.
    destruct (locate_in_bounds ds index Hc (conj Hi Hlt)) as (p & n & _ & _ & H & _).
    eauto.
  - intros Hge. destruct (constructed_inv ds Hc) as [Hcs Hnn].
    unfold locate. rewrite Hcs. unfold cumsum, argwhere.
    destruct (first_row _) as [q|e] eqn:E.
    + apply (first_gt_block (num_slices ds) 0 index 0) in E; [|assumption|lia].
      destruct E as (k & n & _ & Hk & Hb).
      pose proof (earlier_le_sum (num_slices ds) (S k) Hnn) as Hle.
      rewrite (earlier_S _ _ _ Hk) in Hle. unfold len in Hge. lia.
    + apply first_row_raises in E. subst e. reflexivity.
Qed.

Lemma locate_range_witness :
  constructed Examples.asoca_dataset /\
  locate Examples.asoca_dataset 7 = Raise IndexError.
Proof.
  assert (Hc : constructed Examples.asoca_dataset).
  { exists false, Examples.asoca_files. reflexivity. }
  split; [exact Hc|].
  apply (locate_range Examples.asoca_dataset 7 Hc); [lia|].
  change (len Examples.asoca_dataset) with 7. lia.
Defined.

(** X2.  A negative flat index does not count from the end of the dataset:
    it is always resolved inside the first patient, to the index modulo that
    patient's slice count; it raises [ZeroDivisionError] when the first
    patient has no slice, and [IndexError] when there is no patient. *)
Theorem locate_negative_index (ds : ASOCADataset) (index : Z) :
  constructed ds -> index < 0 ->
  locate ds index =
  match num_slices ds with
  | [] => Raise IndexError
  | n :: _ => if n =? 0 then Raise ZeroDivisionError
              else Ok (0%nat, index mod n)
  end.
Proof.
  intros Hc Hi. destruct (constructed_inv ds Hc) as [Hcs Hnn].
  unfold locate. rewrite Hcs.
  destruct (num_slices ds) as [|n r]; [reflexivity|].
  apply Forall_inv in Hnn. unfold cumsum, argwhere. simpl.
  assert (E : (index <? n) = true) by (apply Z.ltb_lt; lia).
  rewrite E. simpl. unfold int_mod. destruct (n =? 0); reflexivity.
Qed.

Lemma locate_negative_index_witness :
  constructed Examples.asoca_dataset /\
  locate Examples.asoca_dataset (-1) = Ok (0%nat, 0).
Proof.
  assert (Hc : constructed Examples.asoca_dataset).
  { exists false, Examples.asoca_files. reflexivity. }
  split; [exact Hc|].
  exact (locate_negative_index Examples.asoca_dataset (-1) Hc ltac:(lia)).
Defined.

(** *** The constructor *)

Lemma nrrd_read_raises (d : directory) (name : string) (e : exn) :
  nrrd_read d name = Raise e -> e = FileNotFoundError.
Proof. unfold nrrd_read. destruct (find _ d); congruence. Qed.

Lemma read_extents_raises (d : directory) (stem : string) (count : nat) :
  forall (i : nat) (acc : list Z) (e : exn),
    read_extents d stem i count acc = Raise e -> e = FileNotFoundError.
Proof.
  induction count as [|c IH]; intros i acc e H; simpl in H; [discriminate|].
  destruct (nrrd_read d (stem ++ str_of_nat (i + 1) ++ ".nrrd")) as [v|e'] eqn:E;
    simpl in H.
  - exact (IH _ _ _ H).
  - injection H as <-. exact (nrrd_read_raises _ _ _ E).
Qed.

(** X3.  The constructor succeeds exactly when the CTCA directories hold the
    files numbered 1 to the number of entries that start with [Normal],
    respectively [Diseased]; otherwise it raises [FileNotFoundError], and
    never anything else.  The annotation directories play no part. *)
Theorem init_succeeds_iff_numbered (norm_flag : bool) (fs : files) :
  (is_ok (init norm_flag fs) = true <->
   (forall i, (i < List.length (glob (normal_ctca fs) "Normal"))%nat ->
      is_ok (nrrd_read (normal_ctca fs) (normal_name i)) = true) /\
   (forall i, (i < List.length (glob (diseased_ctca fs) "Diseased"))%nat ->
      is_ok (nrrd_read (diseased_ctca fs) (diseased_name i)) = true)) /\
  (forall e, init norm_flag fs = Raise e -> e = FileNotFoundError).
Proof.
  split; [split|].
  - destruct (init norm_flag fs) as [ds|e] eqn:E; [intros _|discriminate].
    destruct (init_inv _ _ _ E)
      as (_ & _ & normal & diseased & Hn & Hd & _ & Hrn & Hrd & Hgn & Hgd).
    rewrite <- Hgn, <- Hgd, <- Hn, <- Hd. split; intros i Hi.
    + destruct (nth_error normal i) as [v|] eqn:Ev.
      * now rewrite (Hrn i v Ev).
      * apply nth_error_None in Ev. lia.
    + destruct (nth_error diseased i) as [v|] eqn:Ev.
      * now rewrite (Hrd i v Ev).
      * apply nth_error_None in Ev. lia.
  - intros [Hn Hd]. unfold init, get_num_slices.
    pose proof (read_extents_total (normal_ctca fs) "Normal_"
                  (List.length (glob (normal_ctca fs) "Normal")) 0 [] Hn) as H1.
    destruct (read_extents (normal_ctca fs) "Normal_" 0 _ []) as [ns1|];
      [|discriminate]. simpl.
    pose proof (read_extents_total (diseased_ctca fs) "Diseased_"
                  (List.length (glob (diseased_ctca fs) "Diseased")) 0 ns1 Hd) as H2.
    destruct (read_extents (diseased_ctca fs) "Diseased_" 0 _ ns1) as [ns2|];
      [|discriminate]. reflexivity.
  - intros e. unfold init, get_num_slices.
    destruct (read_extents (normal_ctca fs) "Normal_" 0 _ []) as [ns1|e1] eqn:E1;
      simpl.
    + destruct (read_extents (diseased_ctca fs) "Diseased_" 0 _ ns1)
        as [ns2|e2] eqn:E2; simpl; [discriminate|].
      intros [= <-]. exact (read_extents_raises _ _ _ _ _ _ E2).
    + intros [= <-]. exact (read_extents_raises _ _ _ _ _ _ E1).
Qed.

(** X6.  The cumulative sums of a constructed dataset have one entry per
    patient, are non-negative and non-decreasing, and none exceeds [len]. *)
Theorem cumsums_nondecreasing (ds : ASOCADataset) :
  constructed ds ->
  List.length (slice_cumsums ds) = (num_normal ds + num_diseased ds)%nat /\
  forall i j ci cj, (i <= j)%nat ->
    nth_error (slice_cumsums ds) i = Some ci ->
    nth_error (slice_cumsums ds) j = Some cj ->
    0 <= ci /\ ci <= cj /\ cj <= len ds.
Proof.
  intros Hc. destruct (constructed_inv ds Hc) as [Hcs Hnn]. split.
  - destruct Hc as (nf & fs & H).
    destruct (init_inv _ _ _ H) as (_ & _ & normal & diseased & Hn & Hd & Hns & _).
    rewrite Hcs. unfold cumsum. rewrite length_cumsum_from, Hns, length_map,
      length_app. lia.
  - intros i j ci cj Hij Hi Hj. rewrite Hcs in Hi, Hj. unfold cumsum in Hi, Hj.
    rewrite nth_error_cumsum_from in Hi, Hj.
    destruct (nth_error (num_slices ds) i); [|discriminate].
    destruct (nth_error (num_slices ds) j); [|discriminate].
    injection Hi as <-. injection Hj as <-.
    pose proof (earlier_nonneg (num_slices ds) (S i) Hnn).
    pose proof (earlier_mono (num_slices ds) (S i) (S j) Hnn ltac:(lia)).
    pose proof (earlier_le_sum (num_slices ds) (S j) Hnn).
    unfold len. lia.
Qed.

Lemma cumsums_nondecreasing_witness :
  constructed Examples.asoca_dataset /\
  List.length (slice_cumsums Examples.asoca_dataset) = 3%nat.
Proof.
  assert (Hc : constructed Examples.asoca_dataset).
  { exists false, Examples.asoca_files. reflexivity. }
  split; [exact Hc|].
  exact (proj1 (cumsums_nondecreasing Examples.asoca_dataset Hc)).
Defined.

(** *** The files of a patient *)

Lemma prefix_app (a b : string) : String.prefix a (a ++ b) = true.
Proof.
  induction a as [|c a IH]; simpl; [destruct b; reflexivity|].
  destruct (ascii_dec c c); [exact IH|contradiction].
Qed.

Lemma app_assoc_string (a b c : string) :
  ((a ++ b) ++ c)%string = (a ++ b ++ c)%string.
Proof. induction a as [|x a IH]; simpl; [reflexivity|]. now rewrite IH. Qed.

(** A file that can be read under [pre ++ rest] is among the matches of the
    glob [pre*]. *)
Lemma read_ok_glob_nonempty (d : directory) (pre rest : string) :
  is_ok (nrrd_read d (pre ++ rest)) = true -> glob d pre <> [].
Proof.
  unfold nrrd_read. destruct (find _ d) as [e|] eqn:E; [intros _|discriminate].
  apply find_some in E. destruct E as [Hin Heq].
  apply String.eqb_eq in Heq.
  assert (Hg : In e (glob d pre)).
  { apply filter_In. split; [assumption|]. rewrite <- Heq. apply prefix_app. }
  intros Hnil. rewrite Hnil in Hg. contradiction.
Qed.

(** The first match of a glob is the file read under the name of that
    match. *)
Lemma first_match_is_read (d : directory) (pat : string) (e : string * volume) :
  next_iter (glob d pat) = Ok e -> nrrd_read d (fst e) = Ok (snd e).
Proof.
  induction d as [|x d IH]; simpl; [discriminate|].
  unfold nrrd_read. simpl.
  destruct (String.prefix pat (fst x)) eqn:Ex; simpl.
  - intros [= <-]. now rewrite String.eqb_refl.
  - intros H. destruct (String.eqb (fst e) (fst x)) eqn:Ee.
    + apply String.eqb_eq in Ee.
      assert (Hin : In e (glob d pat)).
      { destruct (glob d pat); [discriminate|]. injection H as <-. now left. }
      apply filter_In in Hin. destruct Hin as [_ Hp].
      rewrite Ee in Hp. congruence.
    + apply IH in H. unfold nrrd_read in H. exact H.
Qed.

(** The diseased file number of a valid position is one of the diseased
    patients. *)
Lemma np_mod_below (p nn nd : nat) :
  (nn <= p)%nat -> (p < nn + nd)%nat -> (np_mod p nn < nd)%nat.
Proof.
  intros H1 H2. unfold np_mod. destruct (Nat.eqb nn 0) eqn:E.
  - apply Nat.eqb_eq in E. lia.
  - replace p with ((p - nn) + 1 * nn)%nat by lia.
    rewrite Nat.Div0.mod_add.
    pose proof (Nat.Div0.mod_le (p - nn) nn). lia.
Qed.

(** X4.  On a constructed dataset the CTCA glob of a valid patient position
    always has a match, so the selection of the files succeeds exactly when
    the annotation glob of that position has one, and otherwise raises
    [StopIteration]. *)
Theorem select_paths_needs_annotation (norm_flag : bool) (fs : files)
    (ds : ASOCADataset) (p : nat) :
  init norm_flag fs = Ok ds ->
  (p < List.length (num_slices ds))%nat ->
  let anno := if (p <? num_normal ds)%nat
              then glob (normal_anno fs)
                        ("Normal_" ++ str_of_nat (p + 1))
              else glob (diseased_anno fs)
                        ("Diseased_"
                         ++ str_of_nat (np_mod p (num_normal ds) + 1)) in
  (anno <> [] -> is_ok (select_paths ds p) = true) /\
  (anno = [] -> select_paths ds p = Raise StopIteration).
Proof.
  intros H Hp anno.
  destruct (init_inv _ _ _ H)
    as (Hdir & _ & normal & diseased & Hn & Hd & Hns & Hrn & Hrd & _).
  assert (Hlen : List.length (num_slices ds) = (num_normal ds + num_diseased ds)%nat).
  { rewrite Hns, length_map, length_app. lia. }
  unfold select_paths. rewrite Hdir. subst anno.
  destruct (p <? num_normal ds)%nat eqn:E.
  - apply Nat.ltb_lt in E.
    destruct (nth_error normal p) as [v|] eqn:Ev;
      [|apply nth_error_None in Ev; lia].
    set (pat := ("Normal_" ++ str_of_nat (p + 1))%string).
    assert (Hg : glob (normal_ctca fs) pat <> []).
    { apply (read_ok_glob_nonempty _ _ ".nrrd"). unfold pat.
      rewrite app_assoc_string. fold (normal_name p). now rewrite (Hrn p v Ev). }
    destruct (glob (normal_ctca fs) pat); [congruence|].
    destruct (glob (normal_anno fs) pat); simpl.
    + split; [intros Hne; exfalso; apply Hne; reflexivity|reflexivity].
    + split; [reflexivity|discriminate].
  - apply Nat.ltb_ge in E.
    pose proof (np_mod_below p (num_normal ds) (num_diseased ds) E ltac:(lia)) as Hk.
    set (k := np_mod p (num_normal ds)) in *.
    destruct (nth_error diseased k) as [v|] eqn:Ev;
      [|apply nth_error_None in Ev; lia].
    set (pat := ("Diseased_" ++ str_of_nat (k + 1))%string).
    assert (Hg : glob (diseased_ctca fs) pat <> []).
    { apply (read_ok_glob_nonempty _ _ ".nrrd"). unfold pat.
      rewrite app_assoc_string. fold (diseased_name k). now rewrite (Hrd k v Ev). }
    destruct (glob (diseased_ctca fs) pat); [congruence|].
    destruct (glob (diseased_anno fs) pat); simpl.
    + split; [intros Hne; exfalso; apply Hne; reflexivity|reflexivity].
    + split; [reflexivity|discriminate].
Qed.

Lemma select_paths_needs_annotation_witness :
  init false Examples.asoca_files = Ok Examples.asoca_dataset /\
  is_ok (select_paths Examples.asoca_dataset 1) = true.
Proof.
  split; [reflexivity|].
  apply (select_paths_needs_annotation false Examples.asoca_files
           Examples.asoca_dataset 1 eq_refl); [simpl; lia|].
  discriminate.
Defined.

(** X5.  When the CTCA file selected for a resolved index carries the name
    the constructor read for that position ([Normal_{p+1}.nrrd], or
    [Diseased_{p-num_normal+1}.nrrd]), the volume loaded at line 45 has the
    slice count recorded for the position, and the slice access of line 46
    is in bounds and returns the slice at the resolved slice index. *)
Theorem named_file_holds_resolved_slice (norm_flag : bool) (fs : files)
    (ds : ASOCADataset) (index : Z) (p : nat) (s : Z)
    (ctca anno : string * volume) :
  init norm_flag fs = Ok ds ->
  0 <= index < len ds ->
  locate ds index = Ok (p, s) ->
  select_paths ds p = Ok (ctca, anno) ->
  fst ctca = (if (p <? num_normal ds)%nat then normal_name p
              else diseased_name (p - num_normal ds)) ->
  nrrd_read (if (p <? num_normal ds)%nat then normal_ctca fs
             else diseased_ctca fs) (fst ctca) = Ok (snd ctca) /\
  nth_error (num_slices ds) p = Some (shape_last (snd ctca)) /\
  0 <= s < shape_last (snd ctca) /\
  exists px,
    axis_get (vol_slices (snd ctca)) s = Ok px /\
    nth_error (vol_slices (snd ctca)) (Z.to_nat s) = Some px.
Proof.
  intros H Hi Hloc Hsel Hname.
  assert (Hc : constructed ds) by (exists norm_flag, fs; exact H).
  destruct (init_inv _ _ _ H)
    as (Hdir & _ & normal & diseased & Hn & Hd & Hns & Hrn & Hrd & _).
  pose proof Hloc as Hb. apply locate_block in Hb; [|assumption|lia].
  destruct Hb as (n & Hpn & Hblock & Hs).
  assert (Hp : (p < num_normal ds + num_diseased ds)%nat).
  { assert (Hl : (p < List.length (num_slices ds))%nat)
      by (apply nth_error_Some; congruence).
    rewrite Hns, length_map, length_app in Hl. lia. }
  (* the volume loaded is the one the constructor read *)
  assert (Hvol : nrrd_read (if (p <? num_normal ds)%nat then normal_ctca fs
                            else diseased_ctca fs) (fst ctca) = Ok (snd ctca)
                 /\ nth_error (normal ++ diseased) p = Some (snd ctca)).
  { unfold select_paths in Hsel. rewrite Hdir in Hsel.
    destruct (p <? num_normal ds)%nat eqn:E.
    - apply Nat.ltb_lt in E.
      destruct (next_iter (glob (normal_ctca fs) _)) as [c|] eqn:Ec;
        simpl in Hsel; [|discriminate].
      destruct (next_iter (glob (normal_anno fs) _)) as [a|];
        simpl in Hsel; [|discriminate].
      injection Hsel as <- _.
      apply first_match_is_read in Ec. split; [exact Ec|].
      rewrite Hname in Ec.
      rewrite nth_error_app1 by lia.
      destruct (nth_error normal p) as [v|] eqn:Ev;
        [|apply nth_error_None in Ev; lia].
      rewrite (Hrn p v Ev) in Ec. congruence.
    - apply Nat.ltb_ge in E.
      destruct (next_iter (glob (diseased_ctca fs) _)) as [c|] eqn:Ec;
        simpl in Hsel; [|discriminate].
      destruct (next_iter (glob (diseased_anno fs) _)) as [a|];
        simpl in Hsel; [|discriminate].
      injection Hsel as <- _.
      apply first_match_is_read in Ec. split; [exact Ec|].
      rewrite Hname in Ec.
      rewrite nth_error_app2 by lia. rewrite Hn.
      destruct (nth_error diseased (p - num_normal ds)) as [v|] eqn:Ev;
        [|apply nth_error_None in Ev; lia].
      rewrite (Hrd _ v Ev) in Ec. congruence. }
  destruct Hvol as [Hread Hvol]. split; [exact Hread|].
  assert (Hcount : nth_error (num_slices ds) p = Some (shape_last (snd ctca))).
  { rewrite Hns. now apply map_nth_error. }
  split; [exact Hcount|].
  rewrite Hpn in Hcount. injection Hcount as ->.
  pose proof (Z.mod_pos_bound index (shape_last (snd ctca)) ltac:(lia)) as Hm.
  rewrite <- Hs in Hm. split; [exact Hm|].
  destruct (nth_error (vol_slices (snd ctca)) (Z.to_nat s)) as [px|] eqn:Epx.
  2:{ apply nth_error_None in Epx. unfold shape_last in Hm. lia. }
  exists px. split; [|reflexivity].
  unfold axis_get. fold (shape_last (snd ctca)).
  destruct (0 <=? s) eqn:E1; [|apply Z.leb_gt in E1; lia].
  destruct (s <? shape_last (snd ctca)) eqn:E2; [|apply Z.ltb_ge in E2; lia].
  simpl. unfold list_get. rewrite Epx. reflexivity.
Qed.

Lemma named_file_holds_resolved_slice_witness :
  init false Examples.asoca_files = Ok Examples.asoca_dataset /\
  exists px,
    axis_get (vol_slices Examples.vol_diseased_1) 0 = Ok px /\
    nth_error (vol_slices Examples.vol_diseased_1) (Z.to_nat 0) = Some px.
Proof.
  split; [reflexivity|].
  apply (named_file_holds_resolved_slice false Examples.asoca_files
           Examples.asoca_dataset 1 1 0
           ("Diseased_1.nrrd"%string, Examples.vol_diseased_1)
           ("Diseased_1.nrrd"%string, Examples.vol_diseased_1));
    try reflexivity.
  change (len Examples.asoca_dataset) with 7. lia.
Defined.

(** *** The normalisation as a min-max scaling *)

Lemma amin_inv (px : list Z) (m : Z) :
  amin px = Ok m -> px <> [] /\ In m px /\ forall y, In y px -> m <= y.
Proof.
  intros H. assert (Hne : px <> []) by (intros ->; discriminate).
  destruct (amin_spec px Hne) as (m' & E & Hin & Hle).
  rewrite H in E. injection E as <-. auto.
Qed.

Lemma amax_inv (px : list Z) (M : Z) :
  amax px = Ok M -> px <> [] /\ In M px /\ forall y, In y px -> y <= M.
Proof.
  intros H. assert (Hne : px <> []) by (intros ->; discriminate).
  destruct (amax_spec px Hne) as (m' & E & Hin & Hle).
  rewrite H in E. injection E as <-. auto.
Qed.

(** The extremes of a list are determined by membership and the bound. *)
Lemma amin_unique (px : list Z) (m : Z) :
  In m px -> (forall y, In y px -> m <= y) -> amin px = Ok m.
Proof.
  intros Hin Hle. assert (Hne : px <> []) by (intros ->; contradiction).
  destruct (amin_spec px Hne) as (m' & E & Hin' & Hle').
  rewrite E. f_equal. specialize (Hle m' Hin'). specialize (Hle' m Hin). lia.
Qed.

Lemma amax_unique (px : list Z) (M : Z) :
  In M px -> (forall y, In y px -> y <= M) -> amax px = Ok M.
Proof.
  intros Hin Hle. assert (Hne : px <> []) by (intros ->; contradiction).
  destruct (amax_spec px Hne) as (m' & E & Hin' & Hle').
  rewrite E. f_equal. specialize (Hle m' Hin'). specialize (Hle' M Hin). lia.
Qed.

(** The extremes of the image of a list under an increasing map. *)
Lemma amin_map_increasing (f : Z -> Z) (px : list Z) (m : Z) :
  (forall a b, a <= b -> f a <= f b) ->
  amin px = Ok m -> amin (map f px) = Ok (f m).
Proof.
  intros Hf H. apply amin_inv in H. destruct H as (_ & Hin & Hle).
  apply amin_unique; [now apply in_map|].
  intros y Hy. apply in_map_iff in Hy. destruct Hy as (x & <- & Hx). auto.
Qed.

Lemma amax_map_increasing (f : Z -> Z) (px : list Z) (M : Z) :
  (forall a b, a <= b -> f a <= f b) ->
  amax px = Ok M -> amax (map f px) = Ok (f M).
Proof.
  intros Hf H. apply amax_inv in H. destruct H as (_ & Hin & Hle).
  apply amax_unique; [now apply in_map|].
  intros y Hy. apply in_map_iff in Hy. destruct Hy as (x & <- & Hx). auto.
Qed.

(** Without wrap-around, the normalisation subtracts the minimum and divides
    by the spread. *)
Lemma normalize_formula (t : dtype) (px : list Z) (m M : Z) :
  amin px = Ok m -> amax px = Ok M -> spread_fits t px ->
  norm_divisor t px = Ok (M - m) /\
  normalize t px = Ok (map (fun x => np_true_divide (x - m) (M - m)) px).
Proof.
  intros Hm HM Hfit.
  destruct (amin_inv _ _ Hm) as (_ & Hin & Hle).
  destruct (shifted_exact t px m Hfit Hin Hle) as [Hsub Habs].
  assert (Hd : amax (map (fun x => x - m) px) = Ok (M - m)).
  { apply (amax_map_increasing (fun x => x - m)); [intros; lia|assumption]. }
  unfold norm_divisor, normalize. rewrite Hm. simpl.
  rewrite Hsub, Habs, Hd. simpl. rewrite map_map. split; reflexivity.
Qed.

(** The quotient does not change when both sides are multiplied by a
    positive factor. *)
Lemma divide_scaled (k a d : Z) :
  0 < k -> np_true_divide (k * a) (k * d) = np_true_divide a d.
Proof.
  intros Hk. unfold np_true_divide.
  destruct (d =? 0) eqn:Ed.
  - apply Z.eqb_eq in Ed. subst d. rewrite Z.mul_0_r. simpl.
    destruct (a =? 0) eqn:Ea.
    + apply Z.eqb_eq in Ea. subst a. now rewrite Z.mul_0_r.
    + apply Z.eqb_neq in Ea.
      destruct (k * a =? 0) eqn:Eka; [apply Z.eqb_eq in Eka; nia|].
      destruct (0 <? a) eqn:Epos.
      * apply Z.ltb_lt in Epos.
        destruct (0 <? k * a) eqn:E; [reflexivity|apply Z.ltb_ge in E; nia].
      * apply Z.ltb_ge in Epos.
        destruct (0 <? k * a) eqn:E; [apply Z.ltb_lt in E; nia|reflexivity].
  - apply Z.eqb_neq in Ed.
    destruct (k * d =? 0) eqn:Ekd; [apply Z.eqb_eq in Ekd; nia|].
    unfold fin. f_equal. apply Qred_complete.
    rewrite !inject_Z_mult. field. split.
    + apply inject_Z_nonzero. exact Ed.
    + apply inject_Z_nonzero. lia.
Qed.

(** X7.  Where the spread of the slice is a value of the pixel type, the
    normalisation is the min-max scaling: the divisor is the maximum minus
    the minimum and each pixel [x] becomes [(x - min) / (max - min)]; the
    order of the pixels is kept. *)
Theorem normalize_is_min_max_scaling (t : dtype) (px : list Z) (m M : Z) :
  amin px = Ok m -> amax px = Ok M -> spread_fits t px ->
  norm_divisor t px = Ok (M - m) /\
  normalize t px = Ok (map (fun x => np_true_divide (x - m) (M - m)) px) /\
  (m < M ->
   forall x y, In x px -> In y px -> x <= y ->
     exists qx qy,
       np_true_divide (x - m) (M - m) = Fin qx /\
       np_true_divide (y - m) (M - m) = Fin qy /\ (qx <= qy)%Q).
Proof.
  intros Hm HM Hfit.
  destruct (normalize_formula t px m M Hm HM Hfit) as [Hd Hn].
  split; [exact Hd|]. split; [exact Hn|].
  intros Hlt x y Hx Hy Hxy.
  destruct (amin_inv _ _ Hm) as (_ & _ & Hle).
  unfold np_true_divide.
  destruct (M - m =? 0) eqn:E; [apply Z.eqb_eq in E; lia|].
  eexists. eexists. split; [reflexivity|]. split; [reflexivity|].
  rewrite !Qred_correct. unfold Qdiv. apply Qmult_le_compat_r.
  - rewrite <- Zle_Qle. lia.
  - apply Qinv_le_0_compat. change 0%Q with (inject_Z 0).
    rewrite <- Zle_Qle. lia.
Qed.

Lemma normalize_is_min_max_scaling_witness :
  spread_fits Int16 [-1000; 0; 3000] /\
  normalize Int16 [-1000; 0; 3000]
  = Ok [Fin 0; Fin (1 # 4); Fin 1].
Proof.
  assert (Hf : spread_fits Int16 [-1000; 0; 3000]).
  { intros a b Ha Hb. unfold dtype_max. simpl in *.
    destruct Ha as [<-|[<-|[<-|[]]]], Hb as [<-|[<-|[<-|[]]]]; lia. }
  split; [exact Hf|].
  destruct (normalize_is_min_max_scaling Int16 [-1000; 0; 3000] (-1000) 3000
              eq_refl eq_refl Hf) as (_ & Hn & _).
  rewrite Hn. reflexivity.
Defined.

(** X8.  For pixel types of at most 32 bits, whose values the division
    takes over exactly, the normalised slice does not depend on the
    intensity scale: a slice and its image under [x -> k * x + c], [k > 0],
    normalise to the same values, as long as the spread of the rescaled
    slice is a value of the pixel type.  (The 64-bit types are left out: the
    division rounds their operands first.) *)
Theorem normalize_affine_invariant (t : dtype) (px : list Z) (k c : Z) :
  bits t <= 32 ->
  0 < k ->
  spread_fits t (map (fun x => k * x + c) px) ->
  normalize t (map (fun x => k * x + c) px) = normalize t px.
Proof.
  intros _ Hk Hfit.
  destruct px as [|x0 r] eqn:Epx; [reflexivity|]. rewrite <- Epx in *.
  assert (Hne : px <> []) by (rewrite Epx; discriminate).
  destruct (amin_spec px Hne) as (m & Hm & _).
  destruct (amax_spec px Hne) as (M & HM & _).
  assert (Hinc : forall a b, a <= b -> k * a + c <= k * b + c) by (intros; nia).
  assert (Hfit0 : spread_fits t px).
  { intros a b Ha Hb.
    pose proof (Hfit (k * a + c) (k * b + c)
                     (in_map _ _ _ Ha) (in_map _ _ _ Hb)) as H1.
    pose proof (Hfit (k * b + c) (k * a + c)
                     (in_map _ _ _ Hb) (in_map _ _ _ Ha)) as H2.
    nia. }
  destruct (normalize_formula t px m M Hm HM Hfit0) as [_ ->].
  destruct (normalize_formula t _ _ _
              (amin_map_increasing _ px m Hinc Hm)
              (amax_map_increasing _ px M Hinc HM) Hfit) as [_ ->].
  f_equal. rewrite map_map. apply map_ext. intros x.
  replace (k * x + c - (k * m + c)) with (k * (x - m)) by lia.
  replace (k * M + c - (k * m + c)) with (k * (M - m)) by lia.
  now apply divide_scaled.
Qed.

Lemma normalize_affine_invariant_witness :
  spread_fits Int16 (map (fun x => 2 * x + 100) [-1000; 0; 3000]) /\
  normalize Int16 [-1900; 100; 6100] = normalize Int16 [-1000; 0; 3000].
Proof.
  assert (Hf : spread_fits Int16 (map (fun x => 2 * x + 100) [-1000; 0; 3000])).
  { intros a b Ha Hb. unfold dtype_max. simpl in *.
    destruct Ha as [<-|[<-|[<-|[]]]], Hb as [<-|[<-|[<-|[]]]]; lia. }
  split; [exact Hf|].
  exact (normalize_affine_invariant Int16 [-1000; 0; 3000] 2 100
           ltac:(simpl; lia) ltac:(lia) Hf).
Defined.

(** X9.  The normalisation raises only on an empty slice ([ValueError] of the
    reduction); on any other slice it returns one value per pixel, whatever
    the pixel type does to the subtraction: all of them finite when the
    divisor is not zero, none of them finite (NaN or an infinity) when it
    is. *)
Theorem normalize_never_raises_on_pixels (t : dtype) (px : list Z) :
  (px = [] -> normalize t px = Raise ValueError) /\
  (px <> [] ->
   exists d out,
     norm_divisor t px = Ok d /\ normalize t px = Ok out /\
     List.length out = List.length px /\
     (d <> 0 -> Forall (fun v => exists q, v = Fin q) out) /\
     (d = 0 -> Forall (fun v => forall q, v <> Fin q) out)).
Proof.
  split; [intros ->; reflexivity|]. intros Hne.
  destruct (amin_spec px Hne) as (m & Hm & _).
  set (shifted := map (fun x => np_sub t x m) px).
  assert (Hs : map (np_abs t) shifted <> []).
  { unfold shifted. destruct px; [congruence|discriminate]. }
  destruct (amax_spec _ Hs) as (d & Hd & _).
  exists d, (map (fun x => np_true_divide x d) shifted).
  unfold norm_divisor, normalize. rewrite Hm. simpl. fold shifted. rewrite Hd.
  split; [reflexivity|]. split; [reflexivity|]. split.
  { unfold shifted. now rewrite !length_map. }
  split; intros Hz; apply Forall_forall; intros v Hv;
    apply in_map_iff in Hv; destruct Hv as (x & <- & _); unfold np_true_divide.
  - destruct (d =? 0) eqn:E; [apply Z.eqb_eq in E; contradiction|].
    eexists. reflexivity.
  - subst d. simpl. intros q.
    destruct (x =? 0); [discriminate|]. destruct (0 <? x); discriminate.
Qed.

Lemma normalize_never_raises_on_pixels_witness :
  [0; -32768] <> [] /\
  exists out, normalize Int16 [0; -32768] = Ok out /\ List.length out = 2%nat.
Proof.
  assert (Hne : [0; -32768] <> []) by discriminate.
  split; [exact Hne|].
  destruct (proj2 (normalize_never_raises_on_pixels Int16 [0; -32768]) Hne)
    as (d & out & _ & Hn & Hl & _).
  exists out. split; [exact Hn | exact Hl].
Defined.

End DatasetExtras.

(* ===================================================================== *)
(** ** Further properties of the training driver *)
(* ===================================================================== *)

Module TrainExtras.
Import Py Train Vocabulary TrainProps.

Lemma fdiv_int_raises (x : float) (n : Z) (e : exn) :
  fdiv_int x n = Raise e -> e = ZeroDivisionError /\ n = 0.
Proof.
  unfold fdiv_int. destruct (n =? 0) eqn:E; [|discriminate].
  apply Z.eqb_eq in E. intros [= <-]. auto.
Qed.

(** The averages of an epoch raise only when a loader gave no batch. *)
Lemma epoch_metrics_raises (tl vl td vd : float) (nt nv : nat) (e : exn) :
  epoch_metrics tl vl td vd nt nv = Raise e ->
  e = ZeroDivisionError /\ (nt = 0%nat \/ nv = 0%nat).
Proof.
  unfold epoch_metrics.
  destruct (fdiv_int tl (Z.of_nat nt)) as [a|e1] eqn:E1; simpl.
  2:{ intros [= <-]. apply fdiv_int_raises in E1. split; [tauto|left; lia]. }
  destruct (fdiv_int vl (Z.of_nat nv)) as [b|e2] eqn:E2; simpl.
  2:{ intros [= <-]. apply fdiv_int_raises in E2. split; [tauto|right; lia]. }
  destruct (fdiv_int td (Z.of_nat nt)) as [c|e3] eqn:E3; simpl.
  2:{ intros [= <-]. apply fdiv_int_raises in E3. split; [tauto|left; lia]. }
  destruct (fdiv_int vd (Z.of_nat nv)) as [d|e4] eqn:E4; simpl.
  2:{ intros [= <-]. apply fdiv_int_raises in E4. split; [tauto|right; lia]. }
  discriminate.
Qed.

Section Driver.

Variables state images masks probs : Type.
Variable model : bool -> state -> images -> probs.
Variable optimizer_step :
  (masks -> probs -> float) -> state -> batch images masks -> state.
Variables dice_loss gdlv_loss focal_loss : masks -> probs -> float.

(** The length of [total_preds] after the validation loop. *)
Lemma val_fold_preds (loss_fn : masks -> probs -> float) (st : state)
    (bs : list (batch images masks)) :
  forall (vl vd : float) (n : nat),
    snd (fold_left (val_step model dice_loss loss_fn st) bs (vl, vd, n))
    = (n + list_sum (map batch_len bs))%nat.
Proof.
  induction bs as [|b bs IH]; intros vl vd n; simpl; [lia|].
  rewrite IH. lia.
Qed.

(** *** The epochs recorded *)

Lemma epochs_aligned (loss_fn : masks -> probs -> float)
    (train_dl : nat -> list (batch images masks))
    (validation_dl : list (batch images masks)) (count : nat) :
  forall (epoch : nat) (r0 r : run state) (o : result unit),
    aligned r0 ->
    epochs model optimizer_step dice_loss loss_fn train_dl validation_dl
           epoch count r0 = (r, o) ->
    aligned r /\
    (List.length (val_losses r0) <= List.length (val_losses r)
     <= List.length (val_losses r0) + count)%nat /\
    (o = Ok tt ->
     List.length (val_losses r) = (List.length (val_losses r0) + count)%nat) /\
    (List.length (checkpoints r) + List.length (val_losses r0)
     <= List.length (checkpoints r0) + List.length (val_losses r))%nat.
Proof.
  induction count as [|c IH]; intros epoch r0 r o H0 E; simpl in E.
  - injection E as <- <-. split; [exact H0|]. split; [lia|].
    split; [intros _; lia|lia].
  - destruct (fold_left (train_step model optimizer_step dice_loss loss_fn) _ _)
      as [[st tl] td].
    destruct (fold_left (val_step model dice_loss loss_fn st) _ _)
      as [[vl vd] np].
    destruct (epoch_metrics tl vl td vd _ _) as [m|e].
    + assert (H1 : aligned (record_epoch r0 st m)).
      { destruct H0 as (A & B & C). unfold aligned. simpl.
        rewrite !length_app. simpl. lia. }
      simpl min_loss in E.
      destruct (flt (m_val_loss m) (min_loss r0)).
      * destruct (np <? 50)%nat.
        -- injection E as <- <-. split; [exact H1|].
           cbn [val_losses checkpoints save_checkpoint record_epoch].
           rewrite !length_app. cbn [List.length].
           split; [lia|]. split; [discriminate|lia].
        -- apply IH in E; [|exact H1].
           cbn [val_losses checkpoints save_checkpoint record_epoch] in E.
           rewrite !length_app in E. cbn [List.length] in E.
           destruct E as (A & B & C & D). split; [exact A|].
           split; [lia|]. split; [intros Ho; specialize (C Ho); lia|lia].
      * apply IH in E; [|exact H1].
        cbn [val_losses checkpoints record_epoch] in E.
        rewrite !length_app in E. cbn [List.length] in E.
        destruct E as (A & B & C & D). split; [exact A|].
        split; [lia|]. split; [intros Ho; specialize (C Ho); lia|lia].
    + injection E as <- <-. split; [exact H0|].
      cbn [val_losses checkpoints]. split; [lia|]. split; [discriminate|lia].
Qed.

(** X10.  The four curves of a run have one point per epoch that reached the
    end of its validation, at most [num_epochs] of them and exactly that
    many when [train] returns; there are never more checkpoints than such
    epochs. *)
Theorem recorded_epochs (a : args) (st0 : state)
    (train_dl : nat -> list (batch images masks))
    (validation_dl : list (batch images masks))
    (r : run state) (o : result unit) :
  train model optimizer_step dice_loss gdlv_loss focal_loss a st0
        train_dl validation_dl = (r, o) ->
  aligned r /\
  (List.length (val_losses r) <= num_epochs a)%nat /\
  (o = Ok tt -> List.length (val_losses r) = num_epochs a) /\
  (List.length (checkpoints r) <= List.length (val_losses r))%nat.
Proof.
  intros E. unfold train in E. apply epochs_aligned in E.
  - simpl in E. destruct E as (A & B & C & D). split; [exact A|].
    split; [lia|]. split; [exact C|lia].
  - unfold aligned. simpl. auto.
Qed.

(** *** The checkpoints *)






(** *** What stops the training *)

Lemma epochs_failures (loss_fn : masks -> probs -> float)
    (train_dl : nat -> list (batch images masks))
    (validation_dl : list (batch images masks)) (count : nat) :
  forall (epoch : nat) (r0 r : run state) (e : exn),
    List.length (val_losses r0) = epoch ->
    epochs model optimizer_step dice_loss loss_fn train_dl validation_dl
           epoch count r0 = (r, Raise e) ->
    (e = ZeroDivisionError /\
     (train_dl (List.length (val_losses r)) = [] \/ validation_dl = [])) \/
    (e = ValueError /\
     (list_sum (map batch_len validation_dl) < 50)%nat /\
     exists c cps, checkpoints r = cps ++ [c] /\
                   ckpt_epoch c = List.length (val_losses r)).
Proof.
  induction count as [|c IH]; intros epoch r0 r e H0 E; simpl in E.
  - discriminate.
  - pose proof (val_fold_preds loss_fn) as Hpreds.
    destruct (fold_left (train_step model optimizer_step dice_loss loss_fn) _ _)
      as [[st tl] td].
    specialize (Hpreds st validation_dl (float_of_Z 0) (float_of_Z 0) 0%nat).
    destruct (fold_left (val_step model dice_loss loss_fn st) _ _)
      as [[vl vd] np].
    simpl in Hpreds.
    destruct (epoch_metrics tl vl td vd _ _) as [m|e'] eqn:Em.
    + assert (L1 : List.length (val_losses (record_epoch r0 st m)) = S epoch).
      { simpl. rewrite length_app. simpl. lia. }
      simpl min_loss in E.
      destruct (flt (m_val_loss m) (min_loss r0)).
      * destruct (np <? 50)%nat eqn:En.
        -- injection E as <- <-. right. split; [reflexivity|].
           apply Nat.ltb_lt in En. split; [lia|].
           eexists. eexists. split; [reflexivity|]. simpl.
           rewrite length_app. simpl. lia.
        -- apply IH in E; [exact E|exact L1].
      * apply IH in E; [exact E|exact L1].
    + injection E as <- <-. apply epoch_metrics_raises in Em.
      destruct Em as [-> Hz]. left. split; [reflexivity|]. simpl.
      rewrite H0. destruct Hz as [Hz|Hz]; [left|right];
        now apply length_zero_iff_nil.
Qed.

Lemma epochs_small_validation (loss_fn : masks -> probs -> float)
    (train_dl : nat -> list (batch images masks))
    (validation_dl : list (batch images masks)) (count : nat) :
  (list_sum (map batch_len validation_dl) < 50)%nat ->
  forall (epoch : nat) (r0 r : run state) (o : result unit),
    checkpoints r0 = [] ->
    epochs model optimizer_step dice_loss loss_fn train_dl validation_dl
           epoch count r0 = (r, o) ->
    (checkpoints r = [] /\ min_loss r = min_loss r0) \/
    (exists c, checkpoints r = [c] /\ o = Raise ValueError).
Proof.
  intros Hsmall.
  induction count as [|c IH]; intros epoch r0 r o H0 E; simpl in E.
  - injection E as <- _. left. auto.
  - pose proof (val_fold_preds loss_fn) as Hpreds.
    destruct (fold_left (train_step model optimizer_step dice_loss loss_fn) _ _)
      as [[st tl] td].
    specialize (Hpreds st validation_dl (float_of_Z 0) (float_of_Z 0) 0%nat).
    destruct (fold_left (val_step model dice_loss loss_fn st) _ _)
      as [[vl vd] np].
    simpl in Hpreds.
    destruct (epoch_metrics tl vl td vd _ _) as [m|e'].
    + simpl min_loss in E.
      destruct (flt (m_val_loss m) (min_loss r0)).
      * assert (En : (np <? 50)%nat = true) by (apply Nat.ltb_lt; lia).
        rewrite En in E. injection E as <- <-. right.
        eexists. simpl. rewrite H0. split; reflexivity.
      * apply IH in E; [exact E|exact H0].
    + injection E as <- _. left. auto.
Qed.

(** X13.  With fewer than 50 validation samples a run writes at most one
    checkpoint and stops with [ValueError] right after it: no epoch follows
    the first one whose validation loss is below infinity. *)
Theorem small_validation_set_stops_training (a : args) (st0 : state)
    (train_dl : nat -> list (batch images masks))
    (validation_dl : list (batch images masks))
    (r : run state) (o : result unit) :
  (list_sum (map batch_len validation_dl) < 50)%nat ->
  train model optimizer_step dice_loss gdlv_loss focal_loss a st0
        train_dl validation_dl = (r, o) ->
  (checkpoints r = [] /\ min_loss r = PInf) \/
  (exists c, checkpoints r = [c] /\ o = Raise ValueError /\
             ckpt_epoch c = List.length (val_losses r)).
Proof.
  intros Hsmall E. pose proof E as E'. unfold train in E.
  apply epochs_small_validation in E; [|exact Hsmall|reflexivity].
  destruct E as [E|(c & Hc & ->)]; [left; exact E|right].
  exists c. split; [exact Hc|]. split; [reflexivity|].
  unfold train in E'. apply epochs_failures in E'; [|reflexivity].
  destruct E' as [[He _]|(_ & _ & c' & cps & Hc' & He)]; [discriminate|].
  rewrite Hc in Hc'. destruct cps as [|x [|y cps]]; simpl in Hc';
    [|discriminate|discriminate].
  injection Hc' as ->. exact He.
Qed.

End Driver.

Lemma recorded_epochs_witness :
  let r := fst (Examples.sound_train 3) in
  aligned r /\ List.length (val_losses r) = 3%nat.
Proof.
  intros r.
  destruct (recorded_epochs nat unit unit float
              Examples.sound_model Examples.toy_step
              Examples.toy_loss Examples.toy_loss Examples.toy_loss
              {| num_epochs := 3; loss := "gdlv" |} 0%nat
              (fun _ => [Examples.toy_batch]) [Examples.toy_batch]
              r (snd (Examples.sound_train 3)) eq_refl) as (A & _ & C & _).
  split; [exact A|]. exact (C eq_refl).
Defined.


Lemma small_validation_set_stops_training_witness :
  (list_sum (map batch_len [Examples.small_batch]) < 50)%nat /\
  exists c, checkpoints (fst (Examples.small_train 3)) = [c].
Proof.
  assert (Hs : (list_sum (map batch_len [Examples.small_batch]) < 50)%nat)
    by (simpl; lia).
  split; [exact Hs|].
  destruct (small_validation_set_stops_training nat unit unit float
              Examples.sound_model Examples.toy_step
              Examples.toy_loss Examples.toy_loss Examples.toy_loss
              {| num_epochs := 3; loss := "dice" |} 0%nat
              (fun _ => [Examples.toy_batch]) [Examples.small_batch]
              (fst (Examples.small_train 3)) (snd (Examples.small_train 3))
              Hs eq_refl) as [[Hc _]|(c & Hc & _)].
  - discriminate Hc.
  - exists c. exact Hc.
Defined.

End TrainExtras.

(* ===================================================================== *)
(** ** Further properties of the main blocks *)
(* ===================================================================== *)

Module MainExtras.
Import Py.

Lemma existsb_eqb_In (s : string) (l : list string) :
  existsb (String.eqb s) l = true <-> In s l.
Proof.
  rewrite existsb_exists. split.
  - intros (x & Hx & E). apply String.eqb_eq in E. now subst.
  - intros H. exists s. split; [assumption|apply String.eqb_refl].
Qed.

Lemma check_args_ok (a : Train.namespace) :
  Train.check_args a = Ok tt <->
  In (Train.ns_loss a) ["dice"; "focal"; "gdlv"]%string /\
  In (Train.ns_dataset a) ["asoca"; "brats"]%string.
Proof.
  unfold Train.check_args.
  destruct (existsb (String.eqb (Train.ns_loss a)) _) eqn:E1; cbn [negb].
  - destruct (existsb (String.eqb (Train.ns_dataset a)) _) eqn:E2; cbn [negb].
    + split; [intros _; split; apply existsb_eqb_In; assumption|reflexivity].
    + split; [discriminate|].
      intros [_ H]. apply existsb_eqb_In in H. congruence.
  - split; [discriminate|].
    intros [H _]. apply existsb_eqb_In in H. congruence.
Qed.

(** X16.  The main block of the training script lets through exactly the
    three loss names and the two dataset names, and raises [ValueError] for
    anything else; after the check, the loss [train] optimises is the one
    named.  [train] itself does not check: any name other than ["dice"] and
    ["gdlv"] selects the focal loss. *)
Theorem check_args_selects_named_loss (masks probs : Type)
    (dice_loss gdlv_loss focal_loss : masks -> probs -> float)
    (a : Train.namespace) :
  (Train.check_args a = Ok tt <->
   In (Train.ns_loss a) ["dice"; "focal"; "gdlv"]%string /\
   In (Train.ns_dataset a) ["asoca"; "brats"]%string) /\
  (Train.check_args a <> Ok tt -> Train.check_args a = Raise ValueError) /\
  (Train.check_args a = Ok tt ->
   (Train.ns_loss a = "dice"%string /\
    Train.select_loss dice_loss gdlv_loss focal_loss (Train.train_args a)
    = dice_loss) \/
   (Train.ns_loss a = "gdlv"%string /\
    Train.select_loss dice_loss gdlv_loss focal_loss (Train.train_args a)
    = gdlv_loss) \/
   (Train.ns_loss a = "focal"%string /\
    Train.select_loss dice_loss gdlv_loss focal_loss (Train.train_args a)
    = focal_loss)) /\
  (Train.ns_loss a <> "dice"%string -> Train.ns_loss a <> "gdlv"%string ->
   Train.select_loss dice_loss gdlv_loss focal_loss (Train.train_args a)
   = focal_loss).
Proof.
  split; [apply check_args_ok|]. split; [|split].
  - unfold Train.check_args.
    destruct (existsb (String.eqb (Train.ns_loss a)) _); cbn [negb];
      [|reflexivity].
    destruct (existsb (String.eqb (Train.ns_dataset a)) _); cbn [negb];
      [congruence|reflexivity].
  - intros H. apply check_args_ok in H. destruct H as [Hl _].
    unfold Train.select_loss, Train.train_args. simpl Train.loss.
    destruct Hl as [<-|[<-|[<-|[]]]]; simpl; auto.
  - intros Hd Hg. unfold Train.select_loss, Train.train_args. simpl Train.loss.
    apply String.eqb_neq in Hd, Hg. now rewrite Hd, Hg.
Qed.

(** X17.  The name of the output directory carries the architecture, and the
    profiler reads it back: for arguments that passed the check, with
    [--skip_conn] one of ["concat"], ["add"] and [--split_strat] one of
    ["patientwise"], ["random"], the name contains ["unet2d"] and not
    ["segformer"], and the profiler builds the non-local U-Net with the
    skip connection that was trained (a plain [UNet2D] without a skip
    argument otherwise).  The parameter counter builds the same models but
    for the non-local U-Net trained with ["add"], which it builds with
    ["sum"]. *)
Theorem out_dir_read_back (a : Train.namespace) :
  Train.check_args a = Ok tt ->
  In (Train.ns_skip_conn a) ["concat"; "add"]%string ->
  In (Train.ns_split_strat a) ["patientwise"; "random"]%string ->
  contains "unet2d" (Train.out_dir a) = true /\
  contains "segformer" (Train.out_dir a) = false /\
  Runtime.unet_model (Train.out_dir a)
  = (if Train.ns_non_local a
     then Models.UNet2DNonLocal (Train.ns_skip_conn a)
     else Models.UNet2D None) /\
  ModelParameters.unet_model (Train.out_dir a)
  = (if Train.ns_non_local a
     then Models.UNet2DNonLocal
            (if String.eqb (Train.ns_skip_conn a) "concat"
             then "concat" else "sum")
     else Models.UNet2D None).
Proof.
  intros Hc Hs Hp. apply check_args_ok in Hc. destruct Hc as [Hl _].
  destruct a as [n l d s p mtv nl th]. simpl in Hl, Hs, Hp.
  unfold Train.out_dir. simpl.
  destruct Hl as [<-|[<-|[<-|[]]]];
    destruct Hs as [<-|[<-|[]]];
    destruct Hp as [<-|[<-|[]]];
    destruct mtv, nl, th; vm_compute; repeat split; reflexivity.
Qed.

Lemma out_dir_read_back_witness :
  let a := {| Train.ns_num_epochs := 3; Train.ns_loss := "dice";
              Train.ns_dataset := "asoca"; Train.ns_skip_conn := "add";
              Train.ns_split_strat := "patientwise";
              Train.ns_merge_test_val := false;
              Train.ns_non_local := true; Train.ns_thresh := false |} in
  Train.check_args a = Ok tt /\
  Runtime.unet_model (Train.out_dir a) = Train.build_model a /\
  ModelParameters.unet_model (Train.out_dir a) = Models.UNet2DNonLocal "sum".
Proof.
  intros a.
  assert (Hc : Train.check_args a = Ok tt) by reflexivity.
  destruct (out_dir_read_back a Hc) as (_ & _ & Hr & Hm).
  - right. left. reflexivity.
  - left. reflexivity.
  - split; [exact Hc|]. split; [exact Hr | exact Hm].
Defined.

End MainExtras.

(* ===================================================================== *)
(** ** Further properties of the runtime profiler *)
(* ===================================================================== *)

Module RuntimeExtras.
Import Py Runtime Vocabulary RuntimeProps.

Open Scope Q_scope.

Lemma average_raises (l : list Q) (e : exn) :
  average l = Raise e -> e = ZeroDivisionError /\ l = [].
Proof.
  unfold average. destruct l; simpl; [|discriminate].
  intros [= <-]. auto.
Qed.

Lemma percent_raises (part total : Q) (e : exn) :
  percent part total = Raise e -> e = ZeroDivisionError /\ total == 0.
Proof.
  unfold percent. destruct (Qeq_bool total 0) eqn:E; [|discriminate].
  intros [= <-]. split; [reflexivity|]. now apply Qeq_bool_iff.
Qed.

(** The fields of a report are the means of the stage totals. *)
Lemma report_means (clocks : list patient_clock) (r : report) :
  perform_runtime_analysis_unet clocks = Ok r ->
  loading_time r == mean (map load_total clocks) /\
  data_preprocessing_time r == mean (map preprocess_total clocks) /\
  inference_time r == mean (map infer_total clocks) /\
  data_postprocessing_time r == mean (map postprocess_total clocks) /\
  total_time r == mean (map elapsed_total clocks).
Proof.
  unfold perform_runtime_analysis_unet. rewrite fold_patient_step. simpl.
  intros Hr. apply summarise_fields in Hr. simpl in Hr.
  destruct Hr as (Hl & Hp & Hi & Ho & Ht).
  apply average_is_mean in Hl, Hp, Hi, Ho, Ht.
  split; [exact Hl|]. split.
  { rewrite Hp. apply mean_ext, Forall2_map_pointwise.
    intros p. apply stage_sums_totals. }
  split.
  { rewrite Hi. apply mean_ext, Forall2_map_pointwise.
    intros p. apply stage_sums_totals. }
  split; [|exact Ht].
  rewrite Ho. apply mean_ext, Forall2_map_pointwise.
  intros p. apply stage_sums_totals.
Qed.

(** The averaging step raises nothing but [ZeroDivisionError]. *)
Lemma summarise_raises (t : timings) (e : exn) :
  summarise t = Raise e -> e = ZeroDivisionError.
Proof.
  unfold summarise.
  destruct (average (loading_times t)) as [lt|e1] eqn:E1; simpl.
  2:{ intros [= <-]. now apply average_raises in E1. }
  destruct (average (data_preprocessing_times t)) as [pt|e2] eqn:E2; simpl.
  2:{ intros [= <-]. now apply average_raises in E2. }
  destruct (average (inference_times t)) as [it|e3] eqn:E3; simpl.
  2:{ intros [= <-]. now apply average_raises in E3. }
  destruct (average (data_postprocessing_times t)) as [ot|e4] eqn:E4; simpl.
  2:{ intros [= <-]. now apply average_raises in E4. }
  destruct (average (total_times t)) as [tt|e5] eqn:E5; simpl.
  2:{ intros [= <-]. now apply average_raises in E5. }
  destruct (percent lt tt) as [pl|e6] eqn:E6; simpl.
  2:{ intros [= <-]. now apply percent_raises in E6. }
  destruct (percent pt tt) as [pp|e7] eqn:E7; simpl.
  2:{ intros [= <-]. now apply percent_raises in E7. }
  destruct (percent it tt) as [pi|e8] eqn:E8; simpl.
  2:{ intros [= <-]. now apply percent_raises in E8. }
  destruct (percent ot tt) as [po|e9] eqn:E9; simpl.
  2:{ intros [= <-]. now apply percent_raises in E9. }
  discriminate.
Qed.

Lemma sum_of_zeros (f : patient_clock -> Q) (clocks : list patient_clock) :
  Forall (fun p => f p == 0) clocks ->
  fold_right Qplus 0 (map f clocks) == 0.
Proof.
  induction 1 as [|p clocks Hp _ IH]; simpl; [reflexivity|].
  rewrite Hp, IH. reflexivity.
Qed.

(** X18.  Once the loop over the patients has run to its end, the averages
    and percentages of lines 89-98 can fail only by [ZeroDivisionError].
    They do at line 89 when the loop ran for no patient.  After one patient
    or more the five averages of lines 89-93 are there, and line 95 fails
    when the clock did not move over any of the patients. *)
Theorem averages_fail_only_by_zero_division (clocks : list patient_clock) :
  let t := fold_left patient_step clocks no_timings in
  (forall e, summarise t = Raise e -> e = ZeroDivisionError) /\
  (clocks = [] -> summarise t = Raise ZeroDivisionError) /\
  (clocks <> [] ->
   exists lt pt it ot tt,
     average (loading_times t) = Ok lt /\
     average (data_preprocessing_times t) = Ok pt /\
     average (inference_times t) = Ok it /\
     average (data_postprocessing_times t) = Ok ot /\
     average (total_times t) = Ok tt) /\
  (clocks <> [] ->
   Forall (fun p => total_time_t1 p == total_time_t0 p) clocks ->
   summarise t = Raise ZeroDivisionError).
Proof.
  intros t.
  assert (Hm : clocks <> [] ->
               forall f : patient_clock -> Q, map f clocks <> []).
  { intros Hne f. destruct clocks; [congruence|discriminate]. }
  assert (Havg : clocks <> [] ->
     exists lt pt it ot tt,
       average (loading_times t) = Ok lt /\
       average (data_preprocessing_times t) = Ok pt /\
       average (inference_times t) = Ok it /\
       average (data_postprocessing_times t) = Ok ot /\
       average (total_times t) = Ok tt).
  { intros Hne. unfold t. rewrite fold_patient_step. simpl.
    destruct (average_total _ (Hm Hne load_total)) as [lt Hlt].
    destruct (average_total _ (Hm Hne (fun p => fst (fst (stage_sums p)))))
      as [pt Hpt].
    destruct (average_total _ (Hm Hne (fun p => snd (fst (stage_sums p)))))
      as [it Hit].
    destruct (average_total _ (Hm Hne (fun p => snd (stage_sums p))))
      as [ot Hot].
    destruct (average_total _ (Hm Hne elapsed_total)) as [tt Htt].
    exists lt, pt, it, ot, tt. repeat split; assumption. }
  split; [intros e; apply summarise_raises|].
  split; [intros ->; reflexivity|].
  split; [exact Havg|].
  intros Hne Hz.
  destruct (Havg Hne) as (lt & pt & it & ot & tt & Hlt & Hpt & Hit & Hot & Htt).
  assert (Hzero : tt == 0).
  { pose proof Htt as Hmean. unfold t in Hmean.
    rewrite fold_patient_step in Hmean. simpl in Hmean.
    apply average_is_mean in Hmean. rewrite Hmean. unfold mean.
    rewrite (sum_of_zeros elapsed_total clocks).
    - unfold Qdiv. ring.
    - eapply Forall_impl; [|exact Hz].
      intros p Hp. unfold elapsed_total. rewrite Hp. ring. }
  unfold summarise. rewrite Hlt, Hpt, Hit, Hot, Htt. simpl.
  unfold percent at 1.
  assert (Hb : Qeq_bool tt 0 = true) by (now apply Qeq_bool_iff).
  rewrite Hb. reflexivity.
Qed.

Lemma averages_fail_only_by_zero_division_witness :
  summarise (fold_left patient_step [] no_timings) = Raise ZeroDivisionError /\
  summarise (fold_left patient_step [Examples.still_clock] no_timings)
  = Raise ZeroDivisionError.
Proof.
  split.
  - exact (proj1 (proj2 (averages_fail_only_by_zero_division [])) eq_refl).
  - apply (proj2 (proj2 (proj2
             (averages_fail_only_by_zero_division [Examples.still_clock])))).
    + discriminate.
    + repeat constructor.
Defined.

(** *** Clocks that only move forward *)

Lemma slices_forward (cs : list slice_clock) :
  forall t t_end : Q,
    slices_chronological t cs t_end ->
    let pre := fold_right Qplus 0
                 (map (fun c => data_preprocessing_time_slice_t1 c
                                - data_preprocessing_time_slice_t0 c) cs) in
    let inf := fold_right Qplus 0
                 (map (fun c => inference_time_slice_t1 c
                                - inference_time_slice_t0 c) cs) in
    let post := fold_right Qplus 0
                  (map (fun c => data_postprocessing_time_slice_t1 c
                                 - data_postprocessing_time_slice_t0 c) cs) in
    0 <= pre /\ 0 <= inf /\ 0 <= post /\ t + pre + inf + post <= t_end.
Proof.
  induction cs as [|c cs IH]; intros t t_end H; simpl in *.
  - repeat split; lra.
  - destruct H as [(H1 & H2 & H3 & H4 & H5 & H6) H7].
    destruct (IH _ _ H7) as (P & I & O & S).
    repeat split; lra.
Qed.

Lemma patient_forward (p : patient_clock) :
  chronological p ->
  0 <= load_total p /\ 0 <= preprocess_total p /\ 0 <= infer_total p /\
  0 <= postprocess_total p /\
  load_total p + preprocess_total p + infer_total p + postprocess_total p
  <= elapsed_total p.
Proof.
  intros [[H1 H2] H3]. apply slices_forward in H3. simpl in H3.
  unfold load_total, preprocess_total, infer_total, postprocess_total,
    elapsed_total.
  destruct H3 as (P & I & O & S). repeat split; lra.
Qed.

Lemma stage_sum_nonneg (f : patient_clock -> Q) (clocks : list patient_clock) :
  (forall p, In p clocks -> 0 <= f p) ->
  0 <= fold_right Qplus 0 (map f clocks).
Proof.
  induction clocks as [|p clocks IH]; intros H; simpl; [lra|].
  pose proof (H p (or_introl eq_refl)).
  assert (0 <= fold_right Qplus 0 (map f clocks))
    by (apply IH; intros q Hq; apply H; now right).
  lra.
Qed.

Lemma sum_stages_le (clocks : list patient_clock) :
  Forall chronological clocks ->
  fold_right Qplus 0 (map load_total clocks)
  + fold_right Qplus 0 (map preprocess_total clocks)
  + fold_right Qplus 0 (map infer_total clocks)
  + fold_right Qplus 0 (map postprocess_total clocks)
  <= fold_right Qplus 0 (map elapsed_total clocks).
Proof.
  induction 1 as [|p clocks Hp _ IH]; simpl; [lra|].
  apply patient_forward in Hp. lra.
Qed.

(** X19.  When the clock readings of every patient are in the order the
    program takes them, no reported stage time is negative and the four
    stage times add up to at most the reported total time. *)
Theorem stages_within_total (clocks : list patient_clock) (r : report) :
  Forall chronological clocks ->
  perform_runtime_analysis_unet clocks = Ok r ->
  0 <= loading_time r /\ 0 <= data_preprocessing_time r /\
  0 <= inference_time r /\ 0 <= data_postprocessing_time r /\
  loading_time r + data_preprocessing_time r + inference_time r
  + data_postprocessing_time r <= total_time r.
Proof.
  intros Hch Hr.
  destruct (report_means clocks r Hr) as (Hl & Hp & Hi & Ho & Ht).
  rewrite Hl, Hp, Hi, Ho, Ht. unfold mean. rewrite !length_map.
  set (n := inject_Z (Z.of_nat (List.length clocks))).
  assert (Hn : 0 <= / n).
  { apply Qinv_le_0_compat. unfold n. change 0 with (inject_Z 0).
    rewrite <- Zle_Qle. lia. }
  assert (Hnn : forall f, (forall p, In p clocks -> 0 <= f p) ->
                  0 <= fold_right Qplus 0 (map f clocks) / n).
  { intros f Hf. unfold Qdiv. apply Qmult_le_0_compat; [|exact Hn].
    now apply stage_sum_nonneg. }
  rewrite Forall_forall in Hch.
  split; [apply Hnn; intros p Hp'; apply patient_forward; auto|].
  split; [apply Hnn; intros p Hp'; apply patient_forward; auto|].
  split; [apply Hnn; intros p Hp'; apply patient_forward; auto|].
  split; [apply Hnn; intros p Hp'; apply patient_forward; auto|].
  apply Forall_forall in Hch. pose proof (sum_stages_le clocks Hch) as Hs.
  unfold Qdiv. rewrite <- !Qmult_plus_distr_l.
  apply Qmult_le_compat_r; assumption.
Qed.

Lemma stages_within_total_witness :
  Forall chronological Examples.patient_clocks /\
  exists r,
    perform_runtime_analysis_unet Examples.patient_clocks = Ok r /\
    loading_time r + data_preprocessing_time r + inference_time r
    + data_postprocessing_time r <= total_time r.
Proof.
  assert (Hch : Forall chronological Examples.patient_clocks).
  { repeat constructor; simpl; unfold Qle; simpl; lia. }
  split; [exact Hch|].
  eexists. split; [reflexivity|].
  apply (stages_within_total Examples.patient_clocks _ Hch eq_refl).
Defined.

Close Scope Q_scope.

(** *** The loop over the model names *)

Section Main.

Variables analysis_unet analysis_segformer : string -> nat -> result unit.

(** X21.  The main loop handles the names in order and stops at the first
    one whose analysis raises: the run over a list followed by another is
    the run over the first, and, only if that one returned, the run over
    the second after it; no name after a failure is analysed. *)
Theorem main_loop_stops_at_first_failure (l1 l2 : list string) (n : nat) :
  main_loop analysis_unet analysis_segformer (l1 ++ l2) n =
  match main_loop analysis_unet analysis_segformer l1 n with
  | (ev1, Ok _) =>
      let '(ev2, r) := main_loop analysis_unet analysis_segformer l2 n in
      (ev1 ++ ev2, r)
  | (ev1, Raise e) => (ev1, Raise e)
  end.
Proof.
  induction l1 as [|m l1 IH]; simpl.
  - destruct (main_loop analysis_unet analysis_segformer l2 n). reflexivity.
  - destruct (dispatch analysis_unet analysis_segformer m n) as [ev [u|e]];
      [|reflexivity].
    rewrite IH.
    destruct (main_loop analysis_unet analysis_segformer l1 n) as [ev1 [u1|e1]];
      [|reflexivity].
    destruct (main_loop analysis_unet analysis_segformer l2 n) as [ev2 r2].
    now rewrite app_assoc.
Qed.

End Main.

End RuntimeExtras.

(* ===================================================================== *)
(** ** Further properties of the parameter counter *)
(* ===================================================================== *)

Module CounterExtras.
Import Py ModelParameters Vocabulary CounterProps.

(** X22.  The count is additive over the parts of a model; with element
    counts that are not negative it lies between zero and the number of all
    elements, which it reaches when every parameter requires a gradient,
    and it is zero when none does. *)
Theorem count_additive_and_bounded (m1 m2 : module) :
  num_model_parameters (m1 ++ m2)
  = num_model_parameters m1 + num_model_parameters m2 /\
  (Forall (fun p => 0 <= numel p) m1 ->
   0 <= num_model_parameters m1 <= sum (map numel m1)) /\
  (Forall (fun p => requires_grad p = true) m1 ->
   num_model_parameters m1 = sum (map numel m1)) /\
  (Forall (fun p => requires_grad p = false) m1 ->
   num_model_parameters m1 = 0).
Proof.
  split; [apply count_app|]. split; [|split].
  - induction 1 as [|p m Hp _ IH]; [unfold num_model_parameters, sum; simpl; lia|].
    rewrite count_cons. simpl map. rewrite DatasetProps.sum_cons.
    destruct (requires_grad p); lia.
  - induction 1 as [|p m Hp _ IH]; [reflexivity|].
    rewrite count_cons, Hp, IH. simpl map. now rewrite DatasetProps.sum_cons.
  - induction 1 as [|p m Hp _ IH]; [reflexivity|].
    rewrite count_cons, Hp, IH. reflexivity.
Qed.

Section Main.

Variables get_model_unet2d get_model_segformer : string -> result module.

(** X23.  A name with neither ["unet2d"] nor ["segformer"] in it loads
    nothing.  As the first name it ends the whole run with [NameError], the
    variable [model] being unbound, whatever names follow; after a model was
    loaded, the number of that earlier model is printed under the
    unrecognised name. *)
Theorem unrecognised_name_reuses_model (model_name : string) :
  contains "unet2d" model_name = false ->
  contains "segformer" model_name = false ->
  (forall rest,
     main get_model_unet2d get_model_segformer (model_name :: rest)
     = ([Discarded ValueError], Raise NameError)) /\
  (forall m,
     iteration get_model_unet2d get_model_segformer (Some m) model_name
     = ([Discarded ValueError; Printed model_name (num_model_parameters m)],
        Ok (Some m))) /\
  (forall first m, get_model_segformer first = Ok m ->
     contains "unet2d" first = false -> contains "segformer" first = true ->
     main get_model_unet2d get_model_segformer [first; model_name]
     = ([Loaded_segformer first; Printed first (num_model_parameters m);
         Discarded ValueError; Printed model_name (num_model_parameters m)],
        Ok tt)).
Proof.
  intros Hu Hs.
  assert (Hit : forall m,
            iteration get_model_unet2d get_model_segformer (Some m) model_name
            = ([Discarded ValueError;
                Printed model_name (num_model_parameters m)], Ok (Some m))).
  { intros m. unfold iteration, dispatch. rewrite Hu, Hs. reflexivity. }
  split; [|split; [exact Hit|]].
  - intros rest. unfold main. simpl. unfold iteration, dispatch.
    rewrite Hu, Hs. reflexivity.
  - intros first m Hm Hfu Hfs.
    assert (Hfirst : iteration get_model_unet2d get_model_segformer None first
                     = ([Loaded_segformer first;
                         Printed first (num_model_parameters m)],
                        Ok (Some m))).
    { unfold iteration, dispatch. rewrite Hfu, Hfs, Hm. reflexivity. }
    unfold main. cbn [main_loop]. rewrite Hfirst, Hit. reflexivity.
Qed.

End Main.

Lemma unrecognised_name_reuses_model_witness :
  main (fun _ => Ok []) (fun _ => Ok Examples.small_model)
       ["segformer_b0"; "resnet50"]%string
  = ([Loaded_segformer "segformer_b0"; Printed "segformer_b0" 15;
      Discarded ValueError; Printed "resnet50" 15], Ok tt).
Proof.
  destruct (unrecognised_name_reuses_model
              (fun _ => Ok []) (fun _ => Ok Examples.small_model)
              "resnet50" eq_refl eq_refl) as (_ & _ & H).
  exact (H "segformer_b0"%string Examples.small_model eq_refl eq_refl eq_refl).
Defined.

Lemma count_additive_and_bounded_witness :
  Forall (fun p => 0 <= numel p) Examples.small_model /\
  0 <= num_model_parameters Examples.small_model
    <= sum (map numel Examples.small_model).
Proof.
  assert (H : Forall (fun p => 0 <= numel p) Examples.small_model).
  { repeat constructor; simpl; lia. }
  split; [exact H|].
  exact (proj1 (proj2 (count_additive_and_bounded Examples.small_model [])) H).
Defined.

End CounterExtras.
